(** * SiaBridge: the catalog, the local cache and the background tasks

    A shallow embedding of [bridge/siabridge.go] and of [copyFile] from the
    package's utility file.  The bridge keeps three pieces of state: the rows
    of a SQLite database (tables [buckets] and [objects]), the files of a
    cache directory, and the files the Sia daemon knows.  Every exported
    method of [SiaBridge] and every helper it calls is a function of a state
    and error monad over a [World] that holds the three of them, the clock,
    the destinations handed to [GetObject] and a schedule of the failures of
    the environment. *)

From Stdlib Require Import ZArith String Ascii List Bool Lia.
From stdpp Require Import base gmap strings list.

Local Open Scope Z_scope.
Local Open Scope string_scope.
Local Open Scope list_scope.

(** ** Go's [int64]

    Counters, sizes and Unix times are [int64]; [+] and [-] wrap around. *)

Module Int64.

Definition min : Z := - 2 ^ 63.
Definition max : Z := 2 ^ 63 - 1.

Definition in_range (z : Z) : Prop := min <= z <= max.

Definition wrap (z : Z) : Z := (z + 2 ^ 63) mod 2 ^ 64 - 2 ^ 63.

Definition add (a b : Z) : Z := wrap (a + b).
Definition sub (a b : Z) : Z := wrap (a - b).

End Int64.

(** ** Errors and results

    A Go [error] that is not [nil].  [ErrNew msg] is [errors.New(msg)];
    the others are the errors of the collaborators the bridge only passes
    on: the database driver, the operating system and the HTTP client. *)

Inductive error : Type :=
  | ErrDb
  | ErrFs
  | ErrSiad
  | ErrNew (msg : string).

Inductive result (A : Type) : Type :=
  | Ok (a : A)
  | Err (e : error).

Arguments Ok {A} a.
Arguments Err {A} e.

(** ** Paths

    [filepath.Clean] and [filepath.Join] of Go's standard library, for the
    separator [/]. *)

Module filepath.

Fixpoint split_from (acc : string) (s : string) : list string :=
  match s with
  | EmptyString => [acc]
  | String c rest =>
      if Ascii.eqb c "/"%char then acc :: split_from "" rest
      else split_from (acc +:+ String c "") rest
  end.

(** The elements of a path between its separators. *)
Definition split (s : string) : list string := split_from "" s.

Definition IsAbs (path : string) : bool :=
  match path with
  | String c _ => Ascii.eqb c "/"%char
  | EmptyString => false
  end.

(** One element of the path read by [Clean]; [out] is the output so far,
    last element first. *)
Definition clean_step (rooted : bool) (out : list string) (elem : string)
  : list string :=
  if String.eqb elem "" || String.eqb elem "." then out
  else if String.eqb elem ".." then
    match out with
    | top :: below => if String.eqb top ".." then elem :: out else below
    | [] => if rooted then [] else [elem]
    end
  else elem :: out.

Definition Clean (path : string) : string :=
  if String.eqb path "" then "."
  else
    let rooted := IsAbs path in
    let out := rev (fold_left (clean_step rooted) (split path) []) in
    let body := String.concat "/" out in
    if rooted then "/" +:+ body
    else if String.eqb body "" then "." else body.

(** [filepath.Join(a, b)]: empty leading elements are dropped, the rest is
    joined with the separator and cleaned. *)
Definition Join (a b : string) : string :=
  if String.eqb a "" then
    if String.eqb b "" then "" else Clean b
  else Clean (a +:+ "/" +:+ b).

(** Everything before the last element, as [filepath.Dir] gives it. *)
Fixpoint dir_prefix (s : string) : string :=
  match s with
  | EmptyString => ""
  | String c rest =>
      if existsb (Ascii.eqb "/"%char) (list_ascii_of_string rest)
         || Ascii.eqb c "/"%char
      then String c (dir_prefix rest)
      else ""
  end.

Definition Dir (path : string) : string := Clean (dir_prefix path).

End filepath.

(** ** The data of the bridge *)

(** [type SiaBridge struct]. *)
Record SiaBridge : Type := {
  SiadAddress : string;
  CacheDir : string;
  DbFile : string
}.

(** A [time.Time] of this program is always [time.Unix(sec, 0)]: it is kept
    as [sec], so that [t.Unix()] is the identity and [t == time.Unix(0,0)]
    is [sec = 0]. *)
Definition Time : Type := Z.

Module BucketInfo.
(** [type BucketInfo struct], also a row of the table [buckets]. *)
Record t : Type := {
  Name : string;
  Created : Time
}.
End BucketInfo.

(** [type ObjectInfo struct], also a row of the table [objects]. *)
Record ObjectInfo : Type := {
  Bucket : string;
  Name : string;
  Size : Z;
  Queued : Time;
  Uploaded : Time;
  PurgeAfter : Z;
  CachedFetches : Z;
  SiaFetches : Z;
  LastFetch : Time
}.

Definition set_Bucket (v : string) (o : ObjectInfo) : ObjectInfo :=
  {| Bucket := v; Name := Name o; Size := Size o; Queued := Queued o;
     Uploaded := Uploaded o; PurgeAfter := PurgeAfter o;
     CachedFetches := CachedFetches o; SiaFetches := SiaFetches o;
     LastFetch := LastFetch o |}.

Definition set_Name (v : string) (o : ObjectInfo) : ObjectInfo :=
  {| Bucket := Bucket o; Name := v; Size := Size o; Queued := Queued o;
     Uploaded := Uploaded o; PurgeAfter := PurgeAfter o;
     CachedFetches := CachedFetches o; SiaFetches := SiaFetches o;
     LastFetch := LastFetch o |}.

Definition set_Uploaded (v : Time) (o : ObjectInfo) : ObjectInfo :=
  {| Bucket := Bucket o; Name := Name o; Size := Size o; Queued := Queued o;
     Uploaded := v; PurgeAfter := PurgeAfter o;
     CachedFetches := CachedFetches o; SiaFetches := SiaFetches o;
     LastFetch := LastFetch o |}.

Definition set_CachedFetches (v : Z) (o : ObjectInfo) : ObjectInfo :=
  {| Bucket := Bucket o; Name := Name o; Size := Size o; Queued := Queued o;
     Uploaded := Uploaded o; PurgeAfter := PurgeAfter o;
     CachedFetches := v; SiaFetches := SiaFetches o;
     LastFetch := LastFetch o |}.

Definition set_SiaFetches (v : Z) (o : ObjectInfo) : ObjectInfo :=
  {| Bucket := Bucket o; Name := Name o; Size := Size o; Queued := Queued o;
     Uploaded := Uploaded o; PurgeAfter := PurgeAfter o;
     CachedFetches := CachedFetches o; SiaFetches := v;
     LastFetch := LastFetch o |}.


(** What the cache directory holds at a path. *)
Inductive node : Type :=
  | File (content : list Byte.byte)
  | Directory.

(** An [io.Reader]: the bytes it yields before EOF, or [None] for a reader
    whose [Read] fails (a handle opened on a directory). *)
Definition Reader : Type := option (list Byte.byte).

(** An [io.Writer] is named by a number; the world keeps what each one has
    received. *)
Definition Writer : Type := nat.

(** One entry of [api.RenterFiles.Files], with the two fields the bridge
    reads and the bytes the network holds for it. *)
Record RenterFile : Type := {
  SiaPath : string;
  Available : bool;
  Stored : list Byte.byte
}.

(** A call made to the daemon: [get] and [getAPI] are GET requests, [post]
    a POST request with a body. *)
Inductive request : Type :=
  | HttpGet (addr call : string)
  | HttpPost (addr call body : string).

Record World : Type := {
  w_buckets : list BucketInfo.t;
  w_objects : list ObjectInfo;
  w_fs : gmap string node;
  w_renter : list RenterFile;
  w_requests : list request;
  w_written : gmap nat (list Byte.byte);
  w_clock : Z;
  w_faults : list bool
}.

Definition with_buckets (v : list BucketInfo.t) (w : World) : World :=
  {| w_buckets := v; w_objects := w_objects w; w_fs := w_fs w;
     w_renter := w_renter w; w_requests := w_requests w;
     w_written := w_written w; w_clock := w_clock w; w_faults := w_faults w |}.

Definition with_objects (v : list ObjectInfo) (w : World) : World :=
  {| w_buckets := w_buckets w; w_objects := v; w_fs := w_fs w;
     w_renter := w_renter w; w_requests := w_requests w;
     w_written := w_written w; w_clock := w_clock w; w_faults := w_faults w |}.

Definition with_fs (v : gmap string node) (w : World) : World :=
  {| w_buckets := w_buckets w; w_objects := w_objects w; w_fs := v;
     w_renter := w_renter w; w_requests := w_requests w;
     w_written := w_written w; w_clock := w_clock w; w_faults := w_faults w |}.

Definition with_renter (v : list RenterFile) (w : World) : World :=
  {| w_buckets := w_buckets w; w_objects := w_objects w; w_fs := w_fs w;
     w_renter := v; w_requests := w_requests w;
     w_written := w_written w; w_clock := w_clock w; w_faults := w_faults w |}.

Definition with_requests (v : list request) (w : World) : World :=
  {| w_buckets := w_buckets w; w_objects := w_objects w; w_fs := w_fs w;
     w_renter := w_renter w; w_requests := v;
     w_written := w_written w; w_clock := w_clock w; w_faults := w_faults w |}.

Definition with_written (v : gmap nat (list Byte.byte)) (w : World) : World :=
  {| w_buckets := w_buckets w; w_objects := w_objects w; w_fs := w_fs w;
     w_renter := w_renter w; w_requests := w_requests w;
     w_written := v; w_clock := w_clock w; w_faults := w_faults w |}.

Definition with_faults (v : list bool) (w : World) : World :=
  {| w_buckets := w_buckets w; w_objects := w_objects w; w_fs := w_fs w;
     w_renter := w_renter w; w_requests := w_requests w;
     w_written := w_written w; w_clock := w_clock w; w_faults := v |}.

(** ** The monad of the methods

    A method reads and changes the world and returns a value or an error;
    [let* x := m in k] is Go's [x, err := m; if err != nil { return err }; k]. *)

Definition M (A : Type) : Type := World -> result A * World.

Definition ret {A : Type} (a : A) : M A := fun w => (Ok a, w).

Definition throw {A : Type} (e : error) : M A := fun w => (Err e, w).

Definition bind {A B : Type} (m : M A) (k : A -> M B) : M B :=
  fun w =>
    match m w with
    | (Ok a, w') => k a w'
    | (Err e, w') => (Err e, w')
    end.

Notation "'let*' x ':=' m 'in' k" := (bind m (fun x => k))
  (at level 10, x name, m at level 100, k at level 200).

Definition get_world : M World := fun w => (Ok w, w).

Definition modify (f : World -> World) : M unit := fun w => (Ok tt, f w).

(** [for _, x := range l { if err := body(x); err != nil { return err } }]. *)
Fixpoint foreach {A : Type} (l : list A) (body : A -> M unit) : M unit :=
  match l with
  | [] => ret tt
  | x :: rest => let* _ := body x in foreach rest body
  end.

(** The next entry of the fault schedule says if the next call to the
    outside (a database statement, a file operation that reports its error,
    an HTTP request) fails; an exhausted schedule means no more failures. *)
Definition fault (e : error) : M unit :=
  fun w =>
    match w_faults w with
    | [] => (Ok tt, w)
    | false :: rest => (Ok tt, with_faults rest w)
    | true :: rest => (Err e, with_faults rest w)
    end.

(** [time.Now().Unix()]. *)
Definition time_Now_Unix : M Z := fun w => (Ok (w_clock w), w).

(** [if err := m; err != nil { ... }] without the return: the error of [m]
    becomes a value.  [os.Mkdir(...)] and [os.Remove(...)] as statements
    drop that value. *)
Definition try {A : Type} (m : M A) : M (result A) :=
  fun w => let (r, w') := m w in (Ok r, w').

(** ** The operating system

    Files and directories are kept by their cleaned path.  The directories
    [.], [/] and the chains of [..] always exist.  [os.Stat] reports an
    error exactly when nothing exists at the path; every other operation
    can also fail by the fault schedule.  Symbolic links, and relative and
    absolute spellings of one file, are left out. *)

Module os.

Definition always_dir (k : string) : bool :=
  String.eqb k "." || String.eqb k "/"
  || forallb (String.eqb "..") (filepath.split k).

Definition lookup (fs : gmap string node) (path : string) : option node :=
  if String.eqb path "" then None
  else
    let k := filepath.Clean path in
    if always_dir k then Some Directory else fs !! k.

Definition is_dir (fs : gmap string node) (path : string) : bool :=
  match lookup fs path with
  | Some Directory => true
  | _ => false
  end.

(** Does the directory [k] hold an entry? *)
Definition has_entries (fs : gmap string node) (k : string) : bool :=
  existsb (fun kv => String.eqb (filepath.Dir (fst kv)) k
                     && negb (String.eqb (fst kv) k))
          (map_to_list fs).

Definition store (path : string) (n : node) : M unit :=
  modify (fun w => with_fs (<[filepath.Clean path := n]> (w_fs w)) w).

(** [os.Stat(path)]: the size of what is there.  The size of a directory
    depends on the system; no caller stores it. *)
Definition Stat (path : string) : M Z :=
  let* w := get_world in
  match lookup (w_fs w) path with
  | None => throw ErrFs
  | Some (File content) => ret (Z.of_nat (length content))
  | Some Directory => ret 0
  end.

Definition Mkdir (path : string) : M unit :=
  let* _ := fault ErrFs in
  let* w := get_world in
  if String.eqb path "" then throw ErrFs
  else
    match lookup (w_fs w) path with
    | Some _ => throw ErrFs
    | None =>
        if is_dir (w_fs w) (filepath.Dir (filepath.Clean path))
        then store path Directory
        else throw ErrFs
    end.

(** [os.Create(path)]: a new empty file, or the old one truncated. *)
Definition Create (path : string) : M unit :=
  let* _ := fault ErrFs in
  let* w := get_world in
  if String.eqb path "" then throw ErrFs
  else
    match lookup (w_fs w) path with
    | Some Directory => throw ErrFs
    | _ =>
        if is_dir (w_fs w) (filepath.Dir (filepath.Clean path))
        then store path (File [])
        else throw ErrFs
    end.

(** [os.Open(path)]: a directory opens too, and then fails to be read. *)
Definition Open (path : string) : M Reader :=
  let* _ := fault ErrFs in
  let* w := get_world in
  match lookup (w_fs w) path with
  | None => throw ErrFs
  | Some (File content) => ret (Some content)
  | Some Directory => ret None
  end.

(** [os.Remove(path)]: a file, or a directory that is empty. *)
Definition Remove (path : string) : M unit :=
  let* _ := fault ErrFs in
  let* w := get_world in
  let k := filepath.Clean path in
  if String.eqb path "" || always_dir k then throw ErrFs
  else
    match w_fs w !! k with
    | None => throw ErrFs
    | Some (File _) => modify (fun w => with_fs (delete k (w_fs w)) w)
    | Some Directory =>
        if has_entries (w_fs w) k then throw ErrFs
        else modify (fun w => with_fs (delete k (w_fs w)) w)
    end.

(** [out.Sync()] and [out.Close()] of a file open for writing. *)
Definition Sync : M unit := fault ErrFs.
Definition Close : M unit := fault ErrFs.

End os.

Module io.

(** [io.Copy(writer, reader)] into a destination of the caller.  A copy
    that fails is taken to have written nothing. *)
Definition Copy (writer : Writer) (reader : Reader) : M unit :=
  let* _ := fault ErrFs in
  match reader with
  | None => throw ErrFs
  | Some data =>
      modify (fun w =>
        with_written (<[writer := default [] (w_written w !! writer) ++ data]>
                        (w_written w)) w)
  end.

(** [io.Copy(out, in)] into the file just created at [path]. *)
Definition CopyToFile (path : string) (reader : Reader) : M unit :=
  let* _ := fault ErrFs in
  match reader with
  | None => throw ErrFs
  | Some data => os.store path (File data)
  end.

End io.

(** What a destination has received so far. *)
Definition received (writer : Writer) (w : World) : list Byte.byte :=
  default [] (w_written w !! writer).

(** ** The daemon *)

(** Modelled from the spec: [abs], a helper of the package that is not in
    the source at hand, gives the absolute form of a path.  The file system
    here is keyed by the path as the process spells it, and the absolute
    form names the same file, so [abs] is the identity. *)
Definition abs (path : string) : string := path.

Definition log_request (r : request) : M unit :=
  modify (fun w => with_requests (w_requests w ++ [r]) w).

(** Modelled from the spec: [get], [post] and [getAPI], the HTTP helpers of
    the package, are not in the source at hand.  Section 4.3 gives the four
    calls: an upload is accepted or refused at once and completes later, a
    download blocks until the object is retrieved or fails, a delete, and
    a snapshot of the files with their availability.  Each call is logged
    as it is sent and can fail by the fault schedule. *)
Definition post_renter_upload (addr siaObj source : string) : M unit :=
  let* _ := log_request (HttpPost addr ("/renter/upload/" +:+ siaObj)
                                  ("source=" +:+ source)) in
  fault ErrSiad.

Definition get_renter_download (addr siaObj destination : string) : M unit :=
  let* _ := log_request (HttpGet addr ("/renter/download/" +:+ siaObj
                                       +:+ "?destination=" +:+ destination)) in
  let* _ := fault ErrSiad in
  let* w := get_world in
  match List.find (fun f => String.eqb (SiaPath f) siaObj && Available f)
                  (w_renter w) with
  | None => throw ErrSiad
  | Some f =>
      match os.lookup (w_fs w) destination with
      | Some Directory => throw ErrSiad
      | _ => if String.eqb destination "" then throw ErrSiad
             else os.store destination (File (Stored f))
      end
  end.

Definition post_renter_delete (addr siaObj : string) : M unit :=
  let* _ := log_request (HttpPost addr ("/renter/delete/" +:+ siaObj) "") in
  let* _ := fault ErrSiad in
  modify (fun w =>
    with_renter (List.filter (fun f => negb (String.eqb (SiaPath f) siaObj))
                             (w_renter w)) w).

Definition getAPI_renter_files (addr : string) : M (list RenterFile) :=
  let* _ := log_request (HttpGet addr "/renter/files") in
  let* _ := fault ErrSiad in
  let* w := get_world in
  ret (w_renter w).

(** ** [copyFile] *)

Definition copyFile (input : Reader) (dst : string) : M unit :=
  (* Does file already exist? *)
  let* st := try (os.Stat dst) in
  match st with
  | Ok _ => ret tt
  | Err _ =>
      let* _ := os.Create dst in
      let* copied := try (let* _ := io.CopyToFile dst input in os.Sync) in
      (* the deferred Close runs on both ways out; its error counts only
         when there is none yet *)
      let* closed := try os.Close in
      match copied, closed with
      | Err e, _ => throw e
      | Ok _, Err e => throw e
      | Ok _, Ok _ => ret tt
      end
  end.

(** ** The database

    A statement ([Prepare] and [Exec], or a query and its [Scan]s) is one
    call to the outside.  The rows of a table are kept in the order in
    which a query yields them. *)

Definition key_is (bucket objectName : string) (o : ObjectInfo) : bool :=
  String.eqb (Bucket o) bucket && String.eqb (Name o) objectName.

Definition bucket_is (bucket : string) (r : BucketInfo.t) : bool :=
  String.eqb (BucketInfo.Name r) bucket.

(** The row of a key, if there is one. *)
Definition find_object (bucket objectName : string) (t : list ObjectInfo)
  : option ObjectInfo :=
  List.find (key_is bucket objectName) t.

Definition key_of (o : ObjectInfo) : string * string := (Bucket o, Name o).

(** [PRIMARY KEY(bucket,name)]: no two rows with one key. *)
Definition pk_unique (t : list ObjectInfo) : Prop :=
  NoDup (List.map key_of t).

(** The rows that [listUploadingObjects] selects. *)
Definition pending (o : ObjectInfo) : bool := Z.eqb (Uploaded o) 0.

Definition query_objects (p : ObjectInfo -> bool) : M (list ObjectInfo) :=
  let* _ := fault ErrDb in
  let* w := get_world in
  ret (List.filter p (w_objects w)).

Definition query_buckets (p : BucketInfo.t -> bool) : M (list BucketInfo.t) :=
  let* _ := fault ErrDb in
  let* w := get_world in
  ret (List.filter p (w_buckets w)).

Definition update_objects (p : ObjectInfo -> bool)
  (f : ObjectInfo -> ObjectInfo) : M unit :=
  let* _ := fault ErrDb in
  modify (fun w =>
    with_objects (List.map (fun o => if p o then f o else o) (w_objects w)) w).

Definition delete_objects (p : ObjectInfo -> bool) : M unit :=
  let* _ := fault ErrDb in
  modify (fun w =>
    with_objects (List.filter (fun o => negb (p o)) (w_objects w)) w).

(** [INSERT]: refused when the primary key is taken. *)
Definition insert_object (row : ObjectInfo) : M unit :=
  let* _ := fault ErrDb in
  fun w =>
    if existsb (key_is (Bucket row) (Name row)) (w_objects w)
    then (Err ErrDb, w)
    else (Ok tt, with_objects (w_objects w ++ [row]) w).

Definition insert_bucket (row : BucketInfo.t) : M unit :=
  let* _ := fault ErrDb in
  fun w =>
    if existsb (bucket_is (BucketInfo.Name row)) (w_buckets w)
    then (Err ErrDb, w)
    else (Ok tt, with_buckets (w_buckets w ++ [row]) w).

Definition delete_buckets (p : BucketInfo.t -> bool) : M unit :=
  let* _ := fault ErrDb in
  modify (fun w =>
    with_buckets (List.filter (fun r => negb (p r)) (w_buckets w)) w).

(** ** The methods of [SiaBridge] *)

Section Bridge.

Variable b : SiaBridge.

Definition bucketExists (bucket : string) : M bool :=
  let* rows := query_buckets (bucket_is bucket) in
  match rows with
  | [] => ret false
  | r :: _ =>
      if String.eqb (BucketInfo.Name r) bucket then ret true
      else throw (ErrNew "Unknown error in bucketExists()")
  end.

Definition objectExists (bucket objectName : string) : M bool :=
  let* rows := query_objects (key_is bucket objectName) in
  match rows with
  | [] => ret false
  | r :: _ =>
      if String.eqb (Bucket r) bucket && String.eqb (Name r) objectName
      then ret true
      else throw (ErrNew "Unknown error in objectExists()")
  end.

Definition insertBucket (bucket : string) : M unit :=
  let* now := time_Now_Unix in
  insert_bucket {| BucketInfo.Name := bucket; BucketInfo.Created := now |}.

Definition insertObject (bucket objectName : string)
  (size queued uploaded purge_after : Z) : M unit :=
  insert_object {| Bucket := bucket;
                   Name := objectName;
                   Size := size;
                   Queued := queued;
                   Uploaded := uploaded;
                   PurgeAfter := purge_after;
                   CachedFetches := 0;
                   SiaFetches := 0;
                   LastFetch := -1 |}.

Definition updateCachedFetches (bucket objectName : string) (fetches : Z)
  : M unit :=
  update_objects (key_is bucket objectName) (set_CachedFetches fetches).

Definition updateSiaFetches (bucket objectName : string) (fetches : Z)
  : M unit :=
  update_objects (key_is bucket objectName) (set_SiaFetches fetches).

Definition markObjectUploaded (bucket objectName : string) : M unit :=
  let* now := time_Now_Unix in
  update_objects (key_is bucket objectName) (set_Uploaded now).

Definition listUploadingObjects : M (list ObjectInfo) :=
  let* rows := query_objects pending in
  ret (List.map (set_Uploaded 0) rows).

(** Creates a new bucket for storing objects. *)
Definition CreateBucket (bucket : string) : M unit :=
  let* exists_ := bucketExists bucket in
  if exists_ : bool then ret tt
  else insertBucket bucket.

(** Returns info for the provided bucket. *)
Definition GetBucketInfo (bucket : string) : M BucketInfo.t :=
  let* rows := query_buckets (bucket_is bucket) in
  match rows with
  | [] => throw (ErrNew "Bucket does not exist")
  | r :: _ => ret {| BucketInfo.Name := bucket;
                     BucketInfo.Created := BucketInfo.Created r |}
  end.

(** List all buckets. *)
Definition ListBuckets : M (list BucketInfo.t) :=
  query_buckets (fun _ => true).

(** Delete a bucket, as well as all contents of the bucket. *)
Definition DeleteBucket (bucket : string) : M unit :=
  delete_buckets (bucket_is bucket).

(** Returns a list of objects in the bucket provided. *)
Definition ListObjects (bucket : string) : M (list ObjectInfo) :=
  let* rows := query_objects (fun o => String.eqb (Bucket o) bucket) in
  ret (List.map (set_Bucket bucket) rows).

(** Returns info for the provided object. *)
Definition GetObjectInfo (bucket objectName : string) : M ObjectInfo :=
  let* rows := query_objects
                 (fun o => String.eqb (Name o) objectName
                           && String.eqb (Bucket o) bucket) in
  match rows with
  | [] => throw (ErrNew "Object does not exist in bucket")
  | r :: _ => ret (set_Bucket bucket (set_Name objectName r))
  end.

(** Writes the object identified by the bucket and object name to the
    writer provided. *)
Definition GetObject (bucket objectName : string) (writer : Writer) : M unit :=
  let* objInfo := GetObjectInfo bucket objectName in
  let siaObj := bucket +:+ "/" +:+ objectName in
  let cachedFile := filepath.Join (CacheDir b) siaObj in
  let* st := try (os.Stat cachedFile) in
  match st with
  | Ok _ =>
      let* reader := os.Open cachedFile in
      let* _ := io.Copy writer reader in
      updateCachedFetches bucket objectName
                          (Int64.add (CachedFetches objInfo) 1)
  | Err _ =>
      if Z.eqb (Uploaded objInfo) 0
      then throw (ErrNew "Attempting to download incomplete file from Sia")
      else
        let* _ := try (os.Mkdir (filepath.Join (CacheDir b) bucket)) in
        let* _ := get_renter_download (SiadAddress b) siaObj (abs cachedFile) in
        let* reader := os.Open (abs cachedFile) in
        let* _ := io.Copy writer reader in
        updateCachedFetches bucket objectName
                            (Int64.add (CachedFetches objInfo) 1)
  end.

(** Uploads the data from the [io.Reader] to the bucket and object name
    specified. *)
Definition PutObjectFromReader (data : Reader) (bucket objectName : string)
  (size purge_after : Z) : M unit :=
  let* exists_ := objectExists bucket objectName in
  if exists_ : bool
  then throw (ErrNew "Object with same name already exists in bucket")
  else
    let siaObj := bucket +:+ "/" +:+ objectName in
    let tmpPath := filepath.Join (CacheDir b) siaObj in
    let* _ := try (os.Mkdir (filepath.Join (CacheDir b) bucket)) in
    let* _ := copyFile data (abs tmpPath) in
    let* now := time_Now_Unix in
    let* _ := insertObject bucket objectName size now 0 purge_after in
    post_renter_upload (SiadAddress b) siaObj (abs tmpPath).

(** Uploads the data from the file specified to the bucket and object name
    specified. *)
Definition PutObjectFromFile (file bucket objectName : string)
  (purge_after : Z) : M unit :=
  let* size := os.Stat file in
  let* data := os.Open file in
  PutObjectFromReader data bucket objectName size purge_after.

(** Deletes the object. *)
Definition DeleteObject (bucket objectName : string) : M unit :=
  let* _ := delete_objects (key_is bucket objectName) in
  let siaObj := bucket +:+ "/" +:+ objectName in
  post_renter_delete (SiadAddress b) siaObj.

(** The body of the inner loop of [purgeCache]. *)
Definition purge_object (object : ObjectInfo) : M unit :=
  if negb (Z.eqb (Uploaded object) 0) then
    let* now := time_Now_Unix in
    let since_uploaded := Int64.sub now (Uploaded object) in
    let* now' := time_Now_Unix in
    let since_fetched := Int64.sub now' (LastFetch object) in
    if Z.gtb since_uploaded (PurgeAfter object)
       && Z.gtb since_fetched (PurgeAfter object)
    then
      let siaObj := Bucket object +:+ "/" +:+ Name object in
      let cachedFile := filepath.Join (CacheDir b) siaObj in
      let* _ := try (os.Remove (abs cachedFile)) in
      ret tt
    else ret tt
  else ret tt.

Definition purgeCache : M unit :=
  let* buckets := ListBuckets in
  foreach buckets (fun bucket =>
    let* objects := ListObjects (BucketInfo.Name bucket) in
    foreach objects purge_object).

(** The body of the inner loop of [checkSiaUploads]. *)
Definition check_file (obj : ObjectInfo) (file : RenterFile) : M unit :=
  let siaObj := Bucket obj +:+ "/" +:+ Name obj in
  if String.eqb (SiaPath file) siaObj && Available file
  then markObjectUploaded (Bucket obj) (Name obj)
  else ret tt.

Definition checkSiaUploads : M unit :=
  let* objs := listUploadingObjects in
  let* rf := getAPI_renter_files (SiadAddress b) in
  foreach objs (fun obj => foreach rf (check_file obj)).

(** Runs periodically to manage the database and cache; the errors are
    printed. *)
Definition manager : M unit :=
  let* _ := try checkSiaUploads in
  let* _ := try purgeCache in
  ret tt.

(** [sql.Open] and the two [CREATE TABLE IF NOT EXISTS]. *)
Definition initDatabase : M unit :=
  let* _ := fault ErrDb in
  let* _ := fault ErrDb in
  fault ErrDb.

(** Called to start running the SiaBridge; the ticker then calls
    [manager]. *)
Definition Start : M unit :=
  let* _ := try (os.Mkdir (CacheDir b)) in
  initDatabase.

End Bridge.

(** ** Runs of the bridge

    What an application and the ticker do to a bridge, one call at a time,
    and what the environment does in between: the clock advances, files of
    the cache directory come and go, the daemon completes uploads, and the
    next calls to the outside fail or not. *)

Inductive Op : Type :=
  | OpStart
  | OpCreateBucket (bucket : string)
  | OpGetBucketInfo (bucket : string)
  | OpListBuckets
  | OpDeleteBucket (bucket : string)
  | OpListObjects (bucket : string)
  | OpGetObjectInfo (bucket objectName : string)
  | OpGetObject (bucket objectName : string) (writer : Writer)
  | OpPutObjectFromReader (data : Reader) (bucket objectName : string)
                          (size purge_after : Z)
  | OpPutObjectFromFile (file bucket objectName : string) (purge_after : Z)
  | OpDeleteObject (bucket objectName : string)
  | OpManager
  | OpEnvFiles (fs : gmap string node)
  | OpEnvRenter (renter : list RenterFile)
  | OpEnvClock (clock : Z)
  | OpEnvFaults (faults : list bool).

Definition with_clock (v : Z) (w : World) : World :=
  {| w_buckets := w_buckets w; w_objects := w_objects w; w_fs := w_fs w;
     w_renter := w_renter w; w_requests := w_requests w;
     w_written := w_written w; w_clock := v; w_faults := w_faults w |}.

Definition run_op (b : SiaBridge) (op : Op) (w : World) : World :=
  match op with
  | OpStart => snd (Start b w)
  | OpCreateBucket bucket => snd (CreateBucket bucket w)
  | OpGetBucketInfo bucket => snd (GetBucketInfo bucket w)
  | OpListBuckets => snd (ListBuckets w)
  | OpDeleteBucket bucket => snd (DeleteBucket bucket w)
  | OpListObjects bucket => snd (ListObjects bucket w)
  | OpGetObjectInfo bucket objectName => snd (GetObjectInfo bucket objectName w)
  | OpGetObject bucket objectName writer =>
      snd (GetObject b bucket objectName writer w)
  | OpPutObjectFromReader data bucket objectName size purge_after =>
      snd (PutObjectFromReader b data bucket objectName size purge_after w)
  | OpPutObjectFromFile file bucket objectName purge_after =>
      snd (PutObjectFromFile b file bucket objectName purge_after w)
  | OpDeleteObject bucket objectName => snd (DeleteObject b bucket objectName w)
  | OpManager => snd (manager b w)
  | OpEnvFiles fs => with_fs fs w
  | OpEnvRenter renter => with_renter renter w
  | OpEnvClock clock => with_clock clock w
  | OpEnvFaults faults => with_faults faults w
  end.

Definition run_ops (b : SiaBridge) (ops : list Op) (w : World) : World :=
  fold_left (fun w op => run_op b op w) ops w.

(** A new database, an empty working directory, a daemon without files. *)
Definition init : World :=
  {| w_buckets := []; w_objects := []; w_fs := ∅; w_renter := [];
     w_requests := []; w_written := ∅; w_clock := 0; w_faults := [] |}.

(** The worlds a bridge can be in. *)
Definition reachable (b : SiaBridge) (w : World) : Prop :=
  exists ops : list Op, w = run_ops b ops init.

(** The bridge of [main.go]. *)
Definition demo : SiaBridge :=
  {| SiadAddress := "127.0.0.1:9980";
     CacheDir := ".sia_cache";
     DbFile := "siabridge.db" |}.

(** The path of the cache file of an object, as [GetObject],
    [PutObjectFromReader] and [purgeCache] compute it. *)
Definition cachedFile (b : SiaBridge) (bucket objectName : string) : string :=
  filepath.Join (CacheDir b) (bucket +:+ "/" +:+ objectName).

(** ** Worlds of the examples *)

Definition bytes (s : string) : list Byte.byte := list_byte_of_string s.

(** The demo bridge after [Start], [CreateBucket("B")] and a put of
    ["old data"] as [B/x], to be purged after an hour. *)
Definition one_object : World :=
  run_ops demo
    [OpStart; OpCreateBucket "B"; OpEnvClock 50;
     OpPutObjectFromReader (Some (bytes "old data")) "B" "x" 8 3600]
    init.

(** The same with [purge_after = 0], then the daemon reports [B/x]
    available, the ticker fires at time 100, and the clock moves on to
    200. *)
Definition durable_forever : World :=
  run_ops demo
    [OpStart; OpCreateBucket "B"; OpEnvClock 50;
     OpPutObjectFromReader (Some (bytes "data")) "B" "x" 4 0;
     OpEnvRenter [{| SiaPath := "B/x"; Available := true;
                     Stored := bytes "data" |}];
     OpEnvClock 100; OpManager; OpEnvClock 200]
    init.

(** [one_object] after the application has removed the cache file of B/x,
    as [main.go] does before its download from Sia. *)
Definition uncached_pending : World :=
  run_ops demo
    [OpEnvFiles (delete (cachedFile demo "B" "x") (w_fs one_object))]
    one_object.


(** The cache path of the object is not the directory of its bucket (as it
    is for an empty object name). *)
Definition own_path (b : SiaBridge) (bucket objectName : string) : Prop :=
  filepath.Clean (cachedFile b bucket objectName)
  <> filepath.Clean (filepath.Join (CacheDir b) bucket).

(** The demo bridge with the bucket B and nothing in it. *)
Definition fresh_bucket : World :=
  run_ops demo [OpStart; OpCreateBucket "B"; OpEnvClock 50] init.

(** The test of the inner loop of [purgeCache], for one reading [now] of
    the clock. *)
Definition purge_due (now : Z) (object : ObjectInfo) : bool :=
  negb (Z.eqb (Uploaded object) 0)
  && (Z.gtb (Int64.sub now (Uploaded object)) (PurgeAfter object)
      && Z.gtb (Int64.sub now (LastFetch object)) (PurgeAfter object)).

(** ** Invariants of the table [objects] *)

(** The fetch fields of a row as [insertObject] writes them. *)
Definition never_fetched (o : ObjectInfo) : Prop :=
  SiaFetches o = 0 /\ LastFetch o = -1.

(** A property of the table that survives the four ways in which the
    methods change it: the insert of a row with a new key and the fetch
    fields of [insertObject], a delete, and the updates of [uploaded] and
    of [cached_fetches]. *)
Record table_invariant (Q : list ObjectInfo -> Prop) : Prop := {
  ti_insert : forall t row,
    Q t -> existsb (key_is (Bucket row) (Name row)) t = false ->
    never_fetched row -> Q (t ++ [row]);
  ti_delete : forall t p, Q t -> Q (List.filter p t);
  ti_uploaded : forall t p v,
    Q t -> Q (List.map (fun o => if p o : bool then set_Uploaded v o else o) t);
  ti_cached : forall t p v,
    Q t ->
    Q (List.map (fun o => if p o : bool then set_CachedFetches v o else o) t)
}.

(** A method keeps a property of the world. *)
Definition keeps {A : Type} (I : World -> Prop) (m : M A) : Prop :=
  forall w, I w -> I (snd (m w)).

(** ** How a pass of [checkSiaUploads] relates the table before and after

    [reconciled now t0 t]: row by row, [t] is [t0], except that rows whose
    key is the key of a row pending in [t0] may have [uploaded] set to
    [now]. *)
Definition reconciled (now : Z) (t0 t : list ObjectInfo) : Prop :=
  Forall2 (fun o o' =>
             o' = o
             \/ (o' = set_Uploaded now o
                 /\ exists r, In r t0 /\ Uploaded r = 0
                              /\ key_of r = key_of o))
          t0 t.

(** The daemon lists the object as available. *)
Definition available (files : list RenterFile) (o : ObjectInfo) : Prop :=
  exists f, In f files
            /\ SiaPath f = Bucket o +:+ "/" +:+ Name o
            /\ Available f = true.

(** Two objects B/x and B/y are pending and the daemon reports both
    available; the third call to the outside from now on (the first
    [UPDATE] of a pass) fails. *)
Definition two_pending : World :=
  run_ops demo
    [OpStart; OpCreateBucket "B"; OpEnvClock 50;
     OpPutObjectFromReader (Some (bytes "data x")) "B" "x" 6 3600;
     OpPutObjectFromReader (Some (bytes "data y")) "B" "y" 6 3600;
     OpEnvRenter [{| SiaPath := "B/x"; Available := true;
                     Stored := bytes "data x" |};
                  {| SiaPath := "B/y"; Available := true;
                     Stored := bytes "data y" |}];
     OpEnvClock 100;
     OpEnvFaults [false; false; true]]
    init.

(** ** The line helpers of the utility file

    [readLines] and [appendStringToFile] stand beside [copyFile]. *)

Definition newline : Byte.byte := Byte.x0a.
Definition carriage_return : Byte.byte := Byte.x0d.

Module bufio.

(** [bufio.MaxScanTokenSize]. *)
Definition MaxScanTokenSize : Z := 64 * 1024.

(** [bufio.ErrTooLong]. *)
Definition ErrTooLong : error := ErrNew "bufio.Scanner: token too long".

(** [dropCR]: one trailing carriage return goes. *)
Fixpoint dropCR (data : list Byte.byte) : list Byte.byte :=
  match data with
  | [] => []
  | [c] => if Byte.eqb c carriage_return then [] else [c]
  | c :: rest => c :: dropCR rest
  end.

(** The tokens that [Scanner.Scan] with [ScanLines] finds in [data], where
    [cur] is what was read of the current line, and whether the scan ended
    with [ErrTooLong]: a line is cut at its newline, the last line needs
    none unless it is empty, and the buffer gives up once it holds
    [MaxScanTokenSize] bytes without a newline. *)
Fixpoint scan_lines (cur data : list Byte.byte)
  : list (list Byte.byte) * bool :=
  match data with
  | [] => (match cur with [] => [] | _ => [dropCR cur] end, false)
  | c :: rest =>
      if Byte.eqb c newline then
        let (lines, long) := scan_lines [] rest in
        (dropCR cur :: lines, long)
      else if Z.leb MaxScanTokenSize (Z.of_nat (length cur) + 1) then ([], true)
      else scan_lines (cur ++ [c]) rest
  end.

(** [for scanner.Scan() { lines = append(lines, scanner.Text()) }] and
    [scanner.Err()] over a reader.  A read that fails is taken to fail
    before the first line. *)
Definition lines_of (reader : Reader) : M (list string * option error) :=
  let* read := try (fault ErrFs) in
  match read, reader with
  | Err e, _ => ret ([], Some e)
  | Ok _, None => ret ([], Some ErrFs)
  | Ok _, Some data =>
      let (lines, long) := scan_lines [] data in
      ret (List.map string_of_list_byte lines,
           if long : bool then Some ErrTooLong else None)
  end.

End bufio.

(** [os.OpenFile(path, os.O_APPEND|os.O_WRONLY, os.ModeAppend)]: without
    [O_CREATE] the file has to be there, and a directory does not open for
    writing. *)
Definition os_OpenFile_append (path : string) : M unit :=
  let* _ := fault ErrFs in
  let* w := get_world in
  match os.lookup (w_fs w) path with
  | Some (File _) => ret tt
  | _ => throw ErrFs
  end.

(** [f.WriteString(s)] on the file opened for appending at [path].  A write
    that fails is taken to have written nothing. *)
Definition File_WriteString (path s : string) : M unit :=
  let* _ := fault ErrFs in
  fun w =>
    match os.lookup (w_fs w) path with
    | Some (File content) =>
        (Ok tt,
         with_fs (<[filepath.Clean path :=
                      File (content ++ list_byte_of_string s)]> (w_fs w)) w)
    | _ => (Err ErrFs, w)
    end.

(** The two results of [readLines] are a pair: the lines read so far and
    the error, if any. *)
Definition readLines (path : string) : M (list string * option error) :=
  let* opened := try (os.Open path) in
  match opened with
  | Ok reader => bufio.lines_of reader
  | Err _ =>
      (* File doesn't exist. Create it. *)
      let* created := try (os.Create path) in
      match created with
      | Err e => ret ([], Some e)
      | Ok _ => bufio.lines_of (Some [])
      end
  end.

Definition appendStringToFile (path text : string) : M unit :=
  let* _ := os_OpenFile_append path in
  let text2 := text +:+ String (ascii_of_byte newline) "" in
  let* written := try (File_WriteString path text2) in
  (* the deferred Close, its error dropped *)
  let* _ := try os.Close in
  match written with
  | Err e => throw e
  | Ok _ => ret tt
  end.

(** ** More worlds of the examples *)

(** [fresh_bucket] when the eighth call to the outside from now on fails:
    for a put, that is the upload request. *)
Definition upload_refused : World :=
  run_ops demo
    [OpEnvFaults [false; false; false; false; false; false; false; true]]
    fresh_bucket.

(** [one_object] with the counter of B/x at the largest [int64]. *)
Definition counter_at_max : World :=
  with_objects (List.map (set_CachedFetches Int64.max) (w_objects one_object))
               one_object.


(** [durable_forever] after the ticker has fired once more: the pass of
    [purgeCache] at time 200 has removed the cache file of B/x. *)
Definition evicted : World := run_ops demo [OpManager] durable_forever.

(** The bytes of a text file of complete lines. *)
Definition joined (lines : list (list Byte.byte)) : list Byte.byte :=
  concat (List.map (fun line => line ++ [newline]) lines).

(** A line that the scanner of [readLines] takes whole: no newline in it,
    and shorter than the buffer of the scanner. *)
Definition scannable (line : list Byte.byte) : Prop :=
  ~ In newline line /\ Z.of_nat (length line) < bufio.MaxScanTokenSize.

(** The demo bridge with the bucket B and a file [list.txt] of the two
    lines [first] and [second]. *)
Definition two_line_file : World :=
  run_ops demo
    [OpEnvFiles (<["list.txt" := File (joined [bytes "first"; bytes "second"])]>
                   (w_fs fresh_bucket))]
    fresh_bucket.

(** As many bytes without a newline as the buffer of the scanner holds,
    and the demo bridge with a file [list.txt] of the line [first] and then
    those bytes. *)
Definition long_line : list Byte.byte :=
  List.repeat Byte.x61 (Z.to_nat bufio.MaxScanTokenSize).

Definition long_line_file : World :=
  run_ops demo
    [OpEnvFiles (<["list.txt" := File (joined [bytes "first"] ++ long_line)]>
                   (w_fs fresh_bucket))]
    fresh_bucket.

(** [durable_forever] when the next call to the outside, the first of the
    next tick, fails. *)
Definition reconcile_fails : World :=
  run_ops demo
    [OpStart; OpCreateBucket "B"; OpEnvClock 50;
     OpPutObjectFromReader (Some (bytes "data")) "B" "x" 4 0;
     OpEnvRenter [{| SiaPath := "B/x"; Available := true;
                     Stored := bytes "data" |}];
     OpEnvClock 100; OpManager; OpEnvClock 200; OpEnvFaults [true]]
    init.

(** ** Objects that share a cache file

    The names of buckets and objects are not checked, and the path of a
    cache file is [filepath.Join] of the cache directory and
    [bucket + "/" + name]: the keys (a/b, c) and (a, b/c) have one cache
    file (and one path on Sia). *)



(** * Properties *)

(** ** Arithmetic and paths *)

Lemma Int64_wrap_in_range (z : Z) : Int64.in_range z -> Int64.wrap z = z.
Proof.
  unfold Int64.in_range, Int64.min, Int64.max, Int64.wrap. intros Hz.
  rewrite Z.mod_small by lia. lia.
Qed.

Lemma Int64_wrap_range (z : Z) : Int64.in_range (Int64.wrap z).
Proof.
  unfold Int64.in_range, Int64.min, Int64.max, Int64.wrap.
  pose proof (Z.mod_pos_bound (z + 2 ^ 63) (2 ^ 64) ltac:(lia)). lia.
Qed.

Example Clean_double_slash : filepath.Clean "abc//def//ghi" = "abc/def/ghi".
Proof. reflexivity. Qed.

Example Clean_dotdot :
  filepath.Clean "abc/def/../../../ghi/jkl/../../../mno" = "../../mno".
Proof. reflexivity. Qed.

Example Clean_rooted_dotdot : filepath.Clean "/abc/def/../../.." = "/".
Proof. reflexivity. Qed.

Example Clean_trailing : filepath.Clean "//abc//" = "/abc".
Proof. reflexivity. Qed.

Example Clean_dot : filepath.Clean "abc/def/../.." = ".".
Proof. reflexivity. Qed.

Example Join_cache :
  filepath.Join ".sia_cache" ("TestBucket1" +:+ "/" +:+ "TestFile1.txt")
  = ".sia_cache/TestBucket1/TestFile1.txt".
Proof. reflexivity. Qed.

Example Join_empty_name :
  filepath.Join ".sia_cache" ("b" +:+ "/" +:+ "") = ".sia_cache/b".
Proof. reflexivity. Qed.

Example Dir_file : filepath.Dir ".sia_cache/b/x" = ".sia_cache/b".
Proof. reflexivity. Qed.

Example Dir_top : filepath.Dir ".sia_cache" = ".".
Proof. reflexivity. Qed.

Example Dir_rooted : filepath.Dir "/x" = "/".
Proof. reflexivity. Qed.

(** ** Runs of the monad *)

(** Unfolds the plumbing of the monad and leaves the calls to the outside
    standing. *)
Ltac mrun :=
  cbv beta iota zeta delta
      [bind ret throw try get_world modify time_Now_Unix log_request].

Ltac mrun_in H :=
  cbv beta iota zeta delta
      [bind ret throw try get_world modify time_Now_Unix log_request] in H.

(** Projections of updated worlds. *)
Ltac wsimpl :=
  cbn [w_buckets w_objects w_fs w_renter w_requests w_written w_clock
       w_faults with_buckets with_objects with_fs with_renter with_requests
       with_written with_clock with_faults fst snd].

Ltac wsimpl_in H :=
  cbn [w_buckets w_objects w_fs w_renter w_requests w_written w_clock
       w_faults with_buckets with_objects with_fs with_renter with_requests
       with_written with_clock with_faults fst snd] in H.

Lemma bind_Ok {A B : Type} (m : M A) (k : A -> M B) w a w1 :
  m w = (Ok a, w1) -> bind m k w = k a w1.
Proof. intros H. unfold bind. by rewrite H. Qed.

Lemma bind_inv {A B : Type} (m : M A) (k : A -> M B) w r w' :
  bind m k w = (r, w') ->
  (exists a w1, m w = (Ok a, w1) /\ k a w1 = (r, w'))
  \/ (exists e, m w = (Err e, w') /\ r = Err e).
Proof.
  unfold bind. destruct (m w) as [[a|e] w1]; intros H.
  - left. eauto.
  - right. exists e. by simplify_eq.
Qed.

Lemma fault_nil e w : w_faults w = [] -> fault e w = (Ok tt, w).
Proof. intros H. unfold fault. by rewrite H. Qed.

Lemma fault_cases e w :
  (exists l, fault e w = (Ok tt, with_faults l w))
  \/ (exists l, fault e w = (Err e, with_faults l w)).
Proof.
  unfold fault. destruct w as [bs os fs rn rq wr ck fl]; simpl.
  destruct fl as [|[] fl]; eauto.
Qed.

(** The next call to the outside in [H] succeeds or fails. *)
Ltac fault_step H :=
  match type of H with
  | context [fault ?e ?w] =>
      let l := fresh "l" in
      let Hl := fresh "Hl" in
      destruct (fault_cases e w) as [[l Hl]|[l Hl]];
      rewrite Hl in H; clear Hl; mrun_in H; wsimpl_in H;
      try discriminate H
  end.

(** ** Loops *)



(** ** Rows and keys *)

Lemma find_filter {A : Type} (p : A -> bool) (l : list A) :
  List.find p l = hd_error (List.filter p l).
Proof.
  induction l as [|x l IH]; simpl; [done|].
  destruct (p x); simpl; done.
Qed.

Lemma find_object_filter bucket objectName t o :
  find_object bucket objectName t = Some o ->
  exists rest, List.filter (key_is bucket objectName) t = o :: rest
               /\ key_is bucket objectName o = true.
Proof.
  unfold find_object. intros H.
  pose proof (find_some _ _ H) as [_ Hk].
  rewrite find_filter in H.
  destruct (List.filter (key_is bucket objectName) t) as [|o' rest]; simpl in H;
    simplify_eq. eauto.
Qed.

Lemma key_is_eq bucket objectName o :
  key_is bucket objectName o = true ->
  Bucket o = bucket /\ Name o = objectName.
Proof.
  unfold key_is. rewrite andb_true_iff, !String.eqb_eq. done.
Qed.

Lemma key_is_refl bucket objectName o :
  Bucket o = bucket -> Name o = objectName -> key_is bucket objectName o = true.
Proof.
  intros <- <-. unfold key_is. by rewrite !String.eqb_refl.
Qed.

Lemma key_is_swap bucket objectName t :
  List.filter (fun o => String.eqb (Name o) objectName
                        && String.eqb (Bucket o) bucket) t
  = List.filter (key_is bucket objectName) t.
Proof.
  apply filter_ext. intros o. unfold key_is. apply andb_comm.
Qed.

Lemma key_is_key_of bucket objectName o :
  key_is bucket objectName o = true <-> key_of o = (bucket, objectName).
Proof.
  unfold key_is, key_of. rewrite andb_true_iff, !String.eqb_eq.
  split; [by intros [-> ->]|by intros [= -> ->]].
Qed.

Lemma set_Bucket_Name_id bucket objectName o :
  key_is bucket objectName o = true ->
  set_Bucket bucket (set_Name objectName o) = o.
Proof.
  intros [<- <-]%key_is_eq. by destruct o.
Qed.

Lemma find_object_app_new bucket objectName t o :
  List.filter (key_is bucket objectName) t = [] ->
  key_is bucket objectName o = true ->
  find_object bucket objectName (t ++ [o]) = Some o.
Proof.
  intros Hf Hk. unfold find_object.
  rewrite find_filter, List.filter_app, Hf. simpl. by rewrite Hk.
Qed.

Lemma find_object_map_key bucket objectName (f : ObjectInfo -> ObjectInfo) t :
  (forall o, key_is bucket objectName (f o) = key_is bucket objectName o) ->
  find_object bucket objectName
    (List.map (fun o => if key_is bucket objectName o then f o else o) t)
  = f <$> find_object bucket objectName t.
Proof.
  intros Hf. unfold find_object.
  induction t as [|o t IH]; simpl; [done|].
  destruct (key_is bucket objectName o) eqn:Hk.
  - by rewrite Hf, Hk.
  - by rewrite Hk.
Qed.

Lemma query_objects_run p w :
  query_objects p w
  = match w_faults w with
    | [] => (Ok (List.filter p (w_objects w)), w)
    | false :: l => (Ok (List.filter p (w_objects w)), with_faults l w)
    | true :: l => (Err ErrDb, with_faults l w)
    end.
Proof.
  unfold query_objects, fault. mrun.
  destruct w as [bs os fs rn rq wr ck fl]; simpl. by destruct fl as [|[] fl].
Qed.

Lemma GetObjectInfo_inv bucket objectName w oi w1 :
  GetObjectInfo bucket objectName w = (Ok oi, w1) ->
  find_object bucket objectName (w_objects w) = Some oi.
Proof.
  unfold GetObjectInfo. unfold bind at 1. rewrite query_objects_run, key_is_swap.
  unfold find_object. rewrite find_filter.
  pose proof (fun o => proj1 (filter_In (key_is bucket objectName) o
                                        (w_objects w))) as Hin.
  destruct (List.filter (key_is bucket objectName) (w_objects w))
    as [|r rest]; destruct (w_faults w) as [|[] fl]; mrun; intros H;
    simplify_eq; simpl; f_equal; symmetry; apply set_Bucket_Name_id;
    apply (Hin r); by left.
Qed.

Lemma updateCachedFetches_run bucket objectName fetches w w' :
  updateCachedFetches bucket objectName fetches w = (Ok tt, w') ->
  w_objects w'
  = List.map (fun o => if key_is bucket objectName o
                       then set_CachedFetches fetches o else o) (w_objects w).
Proof.
  unfold updateCachedFetches, update_objects. mrun. intros H.
  fault_step H. by simplify_eq.
Qed.


Lemma markObjectUploaded_any bucket objectName w :
  w_clock (snd (markObjectUploaded bucket objectName w)) = w_clock w
  /\ (w_objects (snd (markObjectUploaded bucket objectName w)) = w_objects w
      \/ w_objects (snd (markObjectUploaded bucket objectName w))
         = List.map (fun o => if key_is bucket objectName o
                              then set_Uploaded (w_clock w) o else o)
                    (w_objects w)).
Proof.
  unfold markObjectUploaded, update_objects. mrun.
  destruct (fault_cases ErrDb w) as [[l Hl]|[l Hl]]; rewrite Hl; wsimpl; auto.
Qed.

(** ** Files *)

Lemma lookup_other fs k n path :
  filepath.Clean path <> k ->
  os.lookup (<[k := n]> fs) path = os.lookup fs path.
Proof.
  intros Hne. unfold os.lookup.
  destruct (String.eqb path ""); [done|].
  destruct (os.always_dir _); [done|].
  by rewrite lookup_insert_ne.
Qed.

Lemma lookup_deleted fs k path :
  filepath.Clean path <> k ->
  os.lookup (delete k fs) path = os.lookup fs path.
Proof.
  intros Hne. unfold os.lookup.
  destruct (String.eqb path ""); [done|].
  destruct (os.always_dir _); [done|].
  by rewrite lookup_delete_ne.
Qed.

Lemma lookup_None_inv fs path :
  path <> "" -> os.lookup fs path = None ->
  os.always_dir (filepath.Clean path) = false /\ fs !! filepath.Clean path = None.
Proof.
  unfold os.lookup. intros Hp%String.eqb_neq. rewrite Hp.
  destruct (os.always_dir _); [done|]. done.
Qed.

Lemma lookup_stored fs n path :
  path <> "" -> os.always_dir (filepath.Clean path) = false ->
  os.lookup (<[filepath.Clean path := n]> fs) path = Some n.
Proof.
  unfold os.lookup. intros Hp%String.eqb_neq Hd. rewrite Hp, Hd.
  apply lookup_insert_eq.
Qed.

Lemma Remove_fs path w :
  w_objects (snd (os.Remove path w)) = w_objects w
  /\ (w_fs (snd (os.Remove path w)) = w_fs w
      \/ w_fs (snd (os.Remove path w)) = delete (filepath.Clean path) (w_fs w)).
Proof.
  unfold os.Remove. mrun.
  destruct (fault_cases ErrFs w) as [[l Hl]|[l Hl]]; rewrite Hl; wsimpl;
    [|auto].
  destruct (_ || _); wsimpl; [auto|].
  destruct (w_fs w !! filepath.Clean path) as [[c|]|]; wsimpl; auto.
  destruct (os.has_entries _ _); wsimpl; auto.
Qed.

Lemma Remove_clock path w : w_clock (snd (os.Remove path w)) = w_clock w.
Proof.
  unfold os.Remove. mrun.
  destruct (fault_cases ErrFs w) as [[l Hl]|[l Hl]]; rewrite Hl; wsimpl;
    [|done].
  destruct (_ || _); wsimpl; [done|].
  destruct (w_fs w !! filepath.Clean path) as [[c|]|]; wsimpl; try done.
  by destruct (os.has_entries _ _).
Qed.

(** ** Properties that every method keeps *)

Lemma keeps_ret {A : Type} I (a : A) : keeps I (ret a).
Proof. by intros w. Qed.

Lemma keeps_throw {A : Type} I e : keeps I (@throw A e).
Proof. by intros w. Qed.

Lemma keeps_get_world I : keeps I get_world.
Proof. by intros w. Qed.

Lemma keeps_time I : keeps I time_Now_Unix.
Proof. by intros w. Qed.

Lemma keeps_bind {A B : Type} I (m : M A) (k : A -> M B) :
  keeps I m -> (forall a, keeps I (k a)) -> keeps I (bind m k).
Proof.
  intros Hm Hk w Hw. specialize (Hm w Hw). unfold bind.
  destruct (m w) as [[a|e] w1]; simpl in *; [by apply Hk|done].
Qed.

Lemma keeps_bind_val {A B : Type} I (V : A -> Prop) (m : M A) (k : A -> M B) :
  keeps I m ->
  (forall w a w1, I w -> m w = (Ok a, w1) -> V a) ->
  (forall a, V a -> keeps I (k a)) ->
  keeps I (bind m k).
Proof.
  intros Hm HV Hk w Hw. pose proof (Hm w Hw) as Hw1.
  pose proof (HV w) as HVw. unfold bind.
  destruct (m w) as [[a|e] w1]; simpl in *; [|done].
  apply Hk; [|done]. by apply (HVw a w1).
Qed.

Lemma keeps_try {A : Type} I (m : M A) : keeps I m -> keeps I (try m).
Proof.
  intros Hm w Hw. specialize (Hm w Hw). unfold try.
  by destruct (m w).
Qed.

Lemma keeps_foreach {A : Type} I (l : list A) (body : A -> M unit) :
  (forall x, keeps I (body x)) -> keeps I (foreach l body).
Proof.
  intros Hb. induction l as [|x l IH]; simpl.
  - apply keeps_ret.
  - apply keeps_bind; [apply Hb|by intros _].
Qed.

Lemma keeps_foreach_In {A : Type} I (l : list A) (body : A -> M unit) :
  (forall x, In x l -> keeps I (body x)) -> keeps I (foreach l body).
Proof.
  induction l as [|x l IH]; intros Hb; simpl.
  - apply keeps_ret.
  - apply keeps_bind; [apply Hb; by left|intros _].
    apply IH. intros y Hy. apply Hb. by right.
Qed.

Lemma keeps_modify I (f : World -> World) :
  (forall w, I w -> I (f w)) -> keeps I (modify f).
Proof. intros Hf w Hw. by apply Hf. Qed.

Lemma keeps_fault I e :
  (forall l w, I w -> I (with_faults l w)) -> keeps I (fault e).
Proof.
  intros Hf w Hw. destruct (fault_cases e w) as [[l Hl]|[l Hl]]; rewrite Hl;
    by apply Hf.
Qed.

Lemma keeps_run {A : Type} I (m : M A) w r w' :
  keeps I m -> I w -> m w = (r, w') -> I w'.
Proof. intros Hm Hw Hr. specialize (Hm w Hw). by rewrite Hr in Hm. Qed.

(** One rule of the above, by the shape of the method. *)
Ltac keeps_step :=
  match goal with
  | |- keeps _ (bind _ _) => apply keeps_bind; [|intros ?]
  | |- keeps _ (ret _) => apply keeps_ret
  | |- keeps _ (throw _) => apply keeps_throw
  | |- keeps _ (try _) => apply keeps_try
  | |- keeps _ (foreach _ _) => apply keeps_foreach; intros ?
  | |- keeps _ get_world => apply keeps_get_world
  | |- keeps _ time_Now_Unix => apply keeps_time
  | |- keeps _ (fault _) => apply keeps_fault; intros ? ? ?
  | |- keeps _ (modify _) => apply keeps_modify; intros ? ?
  | |- keeps _ (match ?x with _ => _ end) => destruct x
  end.

Section TableInvariant.

Variable Q : list ObjectInfo -> Prop.
Hypothesis HQ : table_invariant Q.

Let I (w : World) : Prop := Q (w_objects w).

Ltac keeps_objects := repeat (first [solve [eauto] | keeps_step]).

Lemma keeps_insert_object row :
  never_fetched row -> keeps I (insert_object row).
Proof.
  intros Hrow. unfold insert_object. keeps_objects.
  intros w Hw. destruct (existsb _ _) eqn:He; simpl; [done|].
  by apply (ti_insert Q HQ).
Qed.

Lemma keeps_insert_bucket row : keeps I (insert_bucket row).
Proof.
  unfold insert_bucket. keeps_objects.
  intros w Hw. by destruct (existsb _ _).
Qed.

Lemma keeps_os_Mkdir path : keeps I (os.Mkdir path).
Proof. unfold os.Mkdir, os.store. keeps_objects. Qed.

Lemma keeps_os_Remove path : keeps I (os.Remove path).
Proof. unfold os.Remove. keeps_objects. Qed.

Lemma keeps_os_Open path : keeps I (os.Open path).
Proof. unfold os.Open. keeps_objects. Qed.

Lemma keeps_os_Stat path : keeps I (os.Stat path).
Proof. unfold os.Stat. keeps_objects. Qed.

Lemma keeps_io_Copy writer reader : keeps I (io.Copy writer reader).
Proof. unfold io.Copy. keeps_objects. Qed.

Lemma keeps_get_renter_download addr siaObj destination :
  keeps I (get_renter_download addr siaObj destination).
Proof.
  unfold get_renter_download, log_request, os.store. keeps_objects.
Qed.

Lemma keeps_copyFile input dst : keeps I (copyFile input dst).
Proof.
  unfold copyFile, os.Create, os.Sync, os.Close, io.CopyToFile, os.store.
  pose proof keeps_os_Stat. keeps_objects.
Qed.

Lemma keeps_query_objects p : keeps I (query_objects p).
Proof. unfold query_objects. keeps_objects. Qed.

Lemma keeps_query_buckets p : keeps I (query_buckets p).
Proof. unfold query_buckets. keeps_objects. Qed.

Lemma keeps_updateCachedFetches bucket objectName fetches :
  keeps I (updateCachedFetches bucket objectName fetches).
Proof.
  unfold updateCachedFetches, update_objects. keeps_objects.
  by apply (ti_cached Q HQ).
Qed.

Lemma keeps_markObjectUploaded bucket objectName :
  keeps I (markObjectUploaded bucket objectName).
Proof.
  unfold markObjectUploaded, update_objects. keeps_objects.
  by apply (ti_uploaded Q HQ).
Qed.

Lemma keeps_GetObject b bucket objectName writer :
  keeps I (GetObject b bucket objectName writer).
Proof.
  pose proof keeps_query_objects. pose proof keeps_os_Stat.
  pose proof keeps_os_Open. pose proof keeps_os_Mkdir.
  pose proof keeps_updateCachedFetches. pose proof keeps_io_Copy.
  pose proof keeps_get_renter_download.
  unfold GetObject, GetObjectInfo.
  keeps_objects.
Qed.

Lemma keeps_PutObjectFromReader b data bucket objectName size purge_after :
  keeps I (PutObjectFromReader b data bucket objectName size purge_after).
Proof.
  pose proof keeps_query_objects. pose proof keeps_os_Mkdir.
  pose proof keeps_copyFile.
  unfold PutObjectFromReader, objectExists, insertObject, post_renter_upload,
    log_request.
  keeps_objects. by apply keeps_insert_object.
Qed.

Lemma keeps_PutObjectFromFile b file bucket objectName purge_after :
  keeps I (PutObjectFromFile b file bucket objectName purge_after).
Proof.
  pose proof keeps_os_Stat. pose proof keeps_os_Open.
  pose proof keeps_PutObjectFromReader.
  unfold PutObjectFromFile. keeps_objects.
Qed.

Lemma keeps_DeleteObject b bucket objectName :
  keeps I (DeleteObject b bucket objectName).
Proof.
  unfold DeleteObject, delete_objects, post_renter_delete, log_request.
  keeps_objects. by apply (ti_delete Q HQ).
Qed.

Lemma keeps_checkSiaUploads b : keeps I (checkSiaUploads b).
Proof.
  pose proof keeps_query_objects. pose proof keeps_markObjectUploaded.
  unfold checkSiaUploads, listUploadingObjects, getAPI_renter_files,
    log_request, check_file.
  keeps_objects.
Qed.

Lemma keeps_purgeCache b : keeps I (purgeCache b).
Proof.
  pose proof keeps_query_objects. pose proof keeps_query_buckets.
  pose proof keeps_os_Remove.
  unfold purgeCache, ListBuckets, ListObjects, purge_object.
  keeps_objects.
Qed.

Lemma keeps_CreateBucket bucket : keeps I (CreateBucket bucket).
Proof.
  pose proof keeps_query_buckets. pose proof keeps_insert_bucket.
  unfold CreateBucket, bucketExists, insertBucket. keeps_objects.
Qed.

(** Every call of the application, every firing of the ticker and every
    move of the environment keeps the property of the table. *)
Lemma run_op_table_invariant b op w :
  Q (w_objects w) -> Q (w_objects (run_op b op w)).
Proof.
  pose proof keeps_query_objects. pose proof keeps_query_buckets.
  pose proof keeps_os_Mkdir.
  pose proof keeps_checkSiaUploads. pose proof keeps_purgeCache.
  destruct op; simpl; try done;
    match goal with
    | |- _ -> Q (w_objects (snd (?m w))) =>
        let Hk := fresh "Hk" in
        assert (Hk : keeps I m); [|exact (Hk w)]
    end.
  - unfold Start, initDatabase. keeps_objects.
  - by apply keeps_CreateBucket.
  - unfold GetBucketInfo. keeps_objects.
  - unfold ListBuckets. keeps_objects.
  - unfold DeleteBucket, delete_buckets. keeps_objects.
  - unfold ListObjects. keeps_objects.
  - unfold GetObjectInfo. keeps_objects.
  - by apply keeps_GetObject.
  - by apply keeps_PutObjectFromReader.
  - by apply keeps_PutObjectFromFile.
  - by apply keeps_DeleteObject.
  - unfold manager. keeps_objects.
Qed.

Lemma run_ops_table_invariant b ops w :
  Q (w_objects w) -> Q (w_objects (run_ops b ops w)).
Proof.
  unfold run_ops. revert w.
  induction ops as [|op ops IH]; intros w Hw; simpl; [done|].
  apply IH. by apply run_op_table_invariant.
Qed.

End TableInvariant.

(** ** The primary key *)

Lemma existsb_key_false bucket objectName t :
  existsb (key_is bucket objectName) t = false ->
  ~ In (bucket, objectName) (List.map key_of t).
Proof.
  intros He (o & Ho & Hin)%in_map_iff.
  assert (existsb (key_is bucket objectName) t = true); [|congruence].
  apply existsb_exists. exists o. split; [done|].
  by apply key_is_key_of.
Qed.

Lemma map_key_update (p : ObjectInfo -> bool) (f : ObjectInfo -> ObjectInfo) t :
  (forall o, key_of (f o) = key_of o) ->
  List.map key_of (List.map (fun o => if p o then f o else o) t)
  = List.map key_of t.
Proof.
  intros Hf. rewrite List.map_map. apply map_ext. intros o.
  by destruct (p o).
Qed.

Lemma NoDup_map_filter {A B : Type} (g : A -> B) (p : A -> bool) l :
  NoDup (List.map g l) -> NoDup (List.map g (List.filter p l)).
Proof.
  induction l as [|x l IH]; simpl; [done|].
  intros [Hx Hl]%NoDup_cons. destruct (p x); simpl; [|by apply IH].
  apply NoDup_cons. split; [|by apply IH].
  rewrite list_elem_of_In in *. intros (y & Hy & [Hin _]%filter_In)%in_map_iff.
  apply Hx, in_map_iff. eauto.
Qed.

Lemma pk_unique_invariant : table_invariant pk_unique.
Proof.
  unfold pk_unique. split.
  - intros t row Ht He _. rewrite List.map_app. simpl.
    apply NoDup_app. split; [done|]. split; [|apply NoDup_singleton].
    intros k Hk ->%list_elem_of_singleton. rewrite list_elem_of_In in Hk.
    by apply existsb_key_false in He.
  - intros t p Ht. by apply NoDup_map_filter.
  - intros t p v Ht. by rewrite map_key_update.
  - intros t p v Ht. by rewrite map_key_update.
Qed.

(** In every world that a run of the bridge reaches, the table [objects]
    has one row per key. *)
Lemma reachable_pk_unique b w : reachable b w -> pk_unique (w_objects w).
Proof.
  intros [ops ->].
  apply (run_ops_table_invariant _ pk_unique_invariant).
  apply NoDup_nil_2.
Qed.

Lemma pk_unique_same_key t r o :
  pk_unique t -> In r t -> In o t -> key_of r = key_of o -> r = o.
Proof.
  unfold pk_unique. induction t as [|x t IH]; simpl; [done|].
  intros [Hx Ht]%NoDup_cons [->|Hr] [->|Ho] Hk; try done.
  - exfalso. apply Hx. rewrite list_elem_of_In, Hk. by apply in_map.
  - exfalso. apply Hx. rewrite list_elem_of_In, <- Hk. by apply in_map.
  - by apply IH.
Qed.

(** ** A pass of [checkSiaUploads] *)

Lemma Forall2_diag {A : Type} (R : A -> A -> Prop) l :
  (forall x, R x x) -> Forall2 R l l.
Proof. intros HR. induction l; by constructor. Qed.

Lemma Forall2_In_l {A B : Type} (R : A -> B -> Prop) l l' x :
  Forall2 R l l' -> In x l -> exists y, In y l' /\ R x y.
Proof.
  induction 1 as [|a c l l' Hac _ IH]; simpl; [done|].
  intros [->|Hx]; [eauto|].
  destruct (IH Hx) as (y & Hy & HR). eauto.
Qed.

Lemma pending_rows_unchanged t :
  List.map (set_Uploaded 0) (List.filter pending t) = List.filter pending t.
Proof.
  induction t as [|o t IH]; simpl; [done|].
  destruct (pending o) eqn:Hp; simpl; [|done].
  rewrite IH. f_equal. unfold pending in Hp. apply Z.eqb_eq in Hp.
  destruct o; simpl in *. by subst.
Qed.

Lemma filter_pending_In t obj :
  In obj (List.filter pending t) -> In obj t /\ Uploaded obj = 0.
Proof.
  intros [Hin Hp]%filter_In. split; [done|]. by apply Z.eqb_eq.
Qed.


Lemma listUploadingObjects_inv w r w1 :
  listUploadingObjects w = (r, w1) ->
  w_objects w1 = w_objects w /\ w_clock w1 = w_clock w
  /\ w_renter w1 = w_renter w
  /\ forall objs, r = Ok objs -> objs = List.filter pending (w_objects w).
Proof.
  unfold listUploadingObjects, query_objects. mrun. intros H.
  fault_step H; simplify_eq; wsimpl; repeat split; try done.
  intros objs [= <-]. apply pending_rows_unchanged.
Qed.

Lemma getAPI_renter_files_inv addr w r w1 :
  getAPI_renter_files addr w = (r, w1) ->
  w_objects w1 = w_objects w /\ w_clock w1 = w_clock w
  /\ forall rf, r = Ok rf -> rf = w_renter w.
Proof.
  unfold getAPI_renter_files. mrun. intros H.
  fault_step H; simplify_eq; wsimpl; repeat split; try done.
  by intros rf [= <-].
Qed.

Lemma checkSiaUploads_inv b w r w' :
  checkSiaUploads b w = (r, w') ->
  (w_objects w' = w_objects w /\ exists e, r = Err e)
  \/ exists w2,
       w_objects w2 = w_objects w /\ w_clock w2 = w_clock w
       /\ foreach (List.filter pending (w_objects w))
                  (fun obj => foreach (w_renter w) (check_file obj)) w2
          = (r, w').
Proof.
  unfold checkSiaUploads. intros H.
  apply bind_inv in H as [(objs & w1 & H1 & H)|(e & H1 & ->)];
    apply listUploadingObjects_inv in H1 as (Ho1 & Hc1 & Hr1 & Hobjs);
    [|left; eauto].
  specialize (Hobjs objs eq_refl). subst objs.
  apply bind_inv in H as [(rf & w2 & H2 & H)|(e & H2 & ->)];
    apply getAPI_renter_files_inv in H2 as (Ho2 & Hc2 & Hrf);
    [|left; split; [congruence|eauto]].
  specialize (Hrf rf eq_refl). subst rf. rewrite Hr1 in H.
  right. exists w2. split; [congruence|]. split; [congruence|done].
Qed.



Section Pass.

Variable now : Z.
Variable t0 : list ObjectInfo.

Let I (w : World) : Prop := w_clock w = now /\ reconciled now t0 (w_objects w).

Lemma keeps_pass_mark bucket objectName :
  (exists r, In r t0 /\ Uploaded r = 0 /\ key_of r = (bucket, objectName)) ->
  keeps I (markObjectUploaded bucket objectName).
Proof.
  intros Hr w [Hck Hrec]. unfold markObjectUploaded, update_objects. mrun.
  destruct (fault_cases ErrDb w) as [[l Hl]|[l Hl]]; rewrite Hl; wsimpl;
    (split; [done|]); [|done].
  rewrite Hck. unfold reconciled in *.
  apply Forall2_fmap_r. eapply Forall2_impl; [exact Hrec|].
  intros o o' Ho. simpl.
  destruct (key_is bucket objectName o') eqn:Hk; [|done].
  right. destruct Ho as [->|[-> Hex]]; [|done].
  split; [done|]. destruct Hr as (r & Hin & Hup & Hkey).
  exists r. repeat split; try done.
  apply key_is_key_of in Hk. congruence.
Qed.

Lemma keeps_pass_loop (objs : list ObjectInfo) (rf : list RenterFile) :
  (forall obj, In obj objs -> In obj t0 /\ Uploaded obj = 0) ->
  keeps I (foreach objs (fun obj => foreach rf (check_file obj))).
Proof.
  intros Hobjs. apply keeps_foreach_In. intros obj Hobj.
  apply keeps_foreach. intros file. unfold check_file.
  destruct (_ && _); [|apply keeps_ret].
  apply keeps_pass_mark. exists obj. by destruct (Hobjs obj Hobj).
Qed.

End Pass.

(** A pass relates the table before and after by [reconciled]. *)
Lemma checkSiaUploads_reconciled b w r w' :
  checkSiaUploads b w = (r, w') ->
  reconciled (w_clock w) (w_objects w) (w_objects w').
Proof.
  assert (Hrefl : reconciled (w_clock w) (w_objects w) (w_objects w))
    by (apply Forall2_diag; by left).
  unfold checkSiaUploads. intros H.
  apply bind_inv in H as [(objs & w1 & H1 & H)|(e & H1 & _)];
    apply listUploadingObjects_inv in H1 as (Ho1 & Hc1 & Hr1 & Hobjs);
    [|by rewrite Ho1].
  specialize (Hobjs objs eq_refl). subst objs.
  apply bind_inv in H as [(rf & w2 & H2 & H)|(e & H2 & _)];
    apply getAPI_renter_files_inv in H2 as (Ho2 & Hc2 & Hrf);
    [|by rewrite Ho2, Ho1].
  eapply (keeps_run _ _ _ _ _ (keeps_pass_loop (w_clock w) (w_objects w) _ _
                                 (filter_pending_In _))) in H; [apply H|].
  split; [congruence|]. by rewrite Ho2, Ho1.
Qed.

Section PassTarget.

Variable now : Z.
Variable t0 : list ObjectInfo.
Variable target : ObjectInfo.



End PassTarget.

Section PassPrefix.

Variable keys : list (string * string).
Variable t0 : list ObjectInfo.



End PassPrefix.



(** ** C1: [DeleteBucket] and the objects of the bucket *)

Lemma DeleteBucket_objects bucket w :
  w_objects (snd (DeleteBucket bucket w)) = w_objects w.
Proof.
  unfold DeleteBucket, delete_buckets, bind, fault, modify.
  destruct w as [bs os fs rn rq wr ck fl]; simpl.
  by destruct fl as [|[] fl].
Qed.

(** C1.  The claim is that after [DeleteBucket(B)] the records of the
    objects of B are gone and [ListObjects(B)] is empty.  In the world
    [one_object], where bucket B holds the object x, [DeleteBucket("B")]
    succeeds and removes the bucket record, and [ListObjects("B")] still
    returns the record of x: the statement deletes from the table [buckets]
    only. *)
Theorem DeleteBucket_keeps_object_records :
  exists w',
    DeleteBucket "B" one_object = (Ok tt, w')
    /\ w_buckets w' = []
    /\ fst (ListObjects "B" w')
       = Ok [ {| Bucket := "B"; Name := "x"; Size := 8; Queued := 50;
                 Uploaded := 0; PurgeAfter := 3600; CachedFetches := 0;
                 SiaFetches := 0; LastFetch := -1 |} ].
Proof.
  exists (snd (DeleteBucket "B" one_object)).
  split; [|split]; vm_compute; reflexivity.
Qed.

(** ** C2: the purge of an object with [purge_after = 0] *)

(** A durable object with [PurgeAfter = 0] that was never fetched is due
    for the purge as soon as the clock has passed its upload time. *)
Lemma purge_due_purge_after_zero now o :
  PurgeAfter o = 0 -> LastFetch o = -1 ->
  0 < Uploaded o < now -> now < Int64.max ->
  purge_due now o = true.
Proof.
  intros Hpa Hlf Hup Hnow. unfold purge_due, Int64.sub. rewrite Hpa, Hlf.
  unfold Int64.max in *.
  rewrite !Int64_wrap_in_range
    by (unfold Int64.in_range, Int64.min, Int64.max; lia).
  destruct (Z.eqb_spec (Uploaded o) 0) as [?|_]; [lia|]. simpl.
  apply andb_true_iff. split; apply Z.gtb_gt; lia.
Qed.

(** C2.  The claim is that an object with [PurgeAfter = 0] never loses its
    cache file to [purgeCache].  In the world [durable_forever] the object
    B/x has [PurgeAfter = 0], was marked uploaded at time 100 and its cache
    file is there; at time 200 [purgeCache] removes the file. *)
Theorem purgeCache_removes_purge_after_zero :
  find_object "B" "x" (w_objects durable_forever)
  = Some {| Bucket := "B"; Name := "x"; Size := 4; Queued := 50;
            Uploaded := 100; PurgeAfter := 0; CachedFetches := 0;
            SiaFetches := 0; LastFetch := -1 |}
  /\ os.lookup (w_fs durable_forever) (cachedFile demo "B" "x")
     = Some (File (bytes "data"))
  /\ exists w',
       purgeCache demo durable_forever = (Ok tt, w')
       /\ os.lookup (w_fs w') (cachedFile demo "B" "x") = None.
Proof.
  split; [|split]; [vm_compute; reflexivity ..|].
  exists (snd (purgeCache demo durable_forever)).
  split; vm_compute; reflexivity.
Qed.

(** ** C3: an error in a pass of [checkSiaUploads] *)






(** ** C4: [copyFile] onto a path that exists *)

(** C4, as claimed, fails: in the world [one_object] the cache file of B/x
    exists, and [copyFile] of other bytes onto its path returns no error. *)
Lemma copyFile_existing_returns_nil :
  os.lookup (w_fs one_object) (cachedFile demo "B" "x")
  = Some (File (bytes "old data"))
  /\ ~ (exists e w',
          copyFile (Some (bytes "new data")) (cachedFile demo "B" "x") one_object
          = (Err e, w')).
Proof.
  split; [vm_compute; reflexivity|].
  intros (e & w' & H). vm_compute in H. discriminate H.
Qed.

(** C4, amended: when something exists at the destination path, [copyFile]
    returns without an error and changes nothing: the content there is not
    overwritten. *)
Theorem copyFile_existing_skips (input : Reader) (dst : string) (w : World) :
  os.lookup (w_fs w) dst <> None ->
  copyFile input dst w = (Ok tt, w).
Proof.
  intros H. unfold copyFile, os.Stat. mrun.
  destruct (os.lookup (w_fs w) dst) as [[c|]|]; mrun; congruence.
Qed.

Lemma copyFile_existing_skips_witness :
  copyFile (Some (bytes "new data")) (cachedFile demo "B" "x") one_object
  = (Ok tt, one_object).
Proof.
  apply copyFile_existing_skips. vm_compute. discriminate.
Defined.

(** ** C5: the purge test of an object that was never fetched *)

Lemma purge_object_run b object w :
  purge_object b object w
  = if purge_due (w_clock w) object
    then (Ok tt, snd (os.Remove (abs (cachedFile b (Bucket object)
                                                 (Name object))) w))
    else (Ok tt, w).
Proof.
  unfold purge_object, purge_due, cachedFile. mrun.
  destruct (Z.eqb (Uploaded object) 0); simpl; [done|].
  destruct (_ && _); [|done].
  by destruct (os.Remove _ w).
Qed.




Section PurgePass.

Variable b : SiaBridge.
Variable w0 : World.
Variable path : string.




End PurgePass.




(** ** C6: an object marked uploaded stays as it is *)

Lemma reconciled_find now t0 l l' bucket objectName o :
  Forall2 (fun o o' =>
             o' = o
             \/ (o' = set_Uploaded now o
                 /\ exists r, In r t0 /\ Uploaded r = 0
                              /\ key_of r = key_of o)) l l' ->
  (forall o r, In o l -> In r t0 -> Uploaded r = 0 -> key_of r = key_of o ->
               Uploaded o = 0) ->
  find_object bucket objectName l = Some o ->
  Uploaded o <> 0 ->
  find_object bucket objectName l' = Some o.
Proof.
  unfold find_object.
  induction 1 as [|o1 o1' l l' Ho _ IH]; intros Hsafe Hf Hup; simpl in *;
    [done|].
  assert (Hk : key_is bucket objectName o1' = key_is bucket objectName o1)
    by (by destruct Ho as [->|[-> _]]).
  rewrite Hk. destruct (key_is bucket objectName o1) eqn:Hk1.
  - simplify_eq. destruct Ho as [->|[-> (r & Hr & Hr0 & Hrk)]]; [done|].
    exfalso. apply Hup. apply (Hsafe o r); auto.
  - apply IH; auto. intros o2 r2 Ho2. apply Hsafe. by right.
Qed.

(** C6.  When the table has one row per key and the row of an object has
    [uploaded] other than the sentinel, a pass of [checkSiaUploads], however
    it ends, leaves that row as it is; and [listUploadingObjects], the
    query of the pending uploads, does not list the object. *)
Theorem checkSiaUploads_keeps_uploaded b w r w' bucket objectName o :
  pk_unique (w_objects w) ->
  find_object bucket objectName (w_objects w) = Some o ->
  Uploaded o <> 0 ->
  checkSiaUploads b w = (r, w') ->
  find_object bucket objectName (w_objects w') = Some o
  /\ forall objs w1,
       listUploadingObjects w = (Ok objs, w1) ->
       find_object bucket objectName objs = None.
Proof.
  intros Hpk Hf Hup Hrun. split.
  - apply checkSiaUploads_reconciled in Hrun.
    eapply reconciled_find; [exact Hrun| |exact Hf|exact Hup].
    intros o1 r1 Ho1 Hr1 Hr0 Hk.
    by rewrite <- (pk_unique_same_key _ _ _ Hpk Hr1 Ho1 Hk).
  - intros objs w1 (_ & _ & _ & Hobjs)%listUploadingObjects_inv.
    rewrite (Hobjs objs eq_refl).
    destruct (find_object bucket objectName
                (List.filter pending (w_objects w))) as [r1|] eqn:Hr1; [|done].
    exfalso. unfold find_object in *.
    apply find_some in Hr1 as [[Hin Hp]%filter_In Hk1].
    apply find_some in Hf as [Hino Hk].
    assert (r1 = o) as ->.
    { apply (pk_unique_same_key _ _ _ Hpk Hin Hino).
      apply key_is_key_of in Hk1, Hk. congruence. }
    apply Hup. by apply Z.eqb_eq.
Qed.

Lemma checkSiaUploads_keeps_uploaded_witness :
  find_object "B" "x"
    (w_objects (snd (checkSiaUploads demo durable_forever)))
  = Some {| Bucket := "B"; Name := "x"; Size := 4; Queued := 50;
            Uploaded := 100; PurgeAfter := 0; CachedFetches := 0;
            SiaFetches := 0; LastFetch := -1 |}
  /\ forall objs w1,
       listUploadingObjects durable_forever = (Ok objs, w1) ->
       find_object "B" "x" objs = None.
Proof.
  apply (checkSiaUploads_keeps_uploaded demo durable_forever
           (fst (checkSiaUploads demo durable_forever))).
  - apply (reachable_pk_unique demo). eexists. reflexivity.
  - vm_compute. reflexivity.
  - vm_compute. discriminate.
  - vm_compute. reflexivity.
Defined.

(** ** C7: a put onto a key that has a record *)

(** C7.  When the table [objects] has a row for (bucket, objectName),
    [PutObjectFromReader] fails and changes neither the catalog nor the
    cache, and sends nothing to the daemon.  The error is the conflict
    error of the method whenever the database answers the existence query
    (otherwise it is the error of the database). *)
Theorem PutObjectFromReader_conflict b data bucket objectName size purge_after
  w o :
  find_object bucket objectName (w_objects w) = Some o ->
  exists e w',
    PutObjectFromReader b data bucket objectName size purge_after w
    = (Err e, w')
    /\ w_objects w' = w_objects w
    /\ w_buckets w' = w_buckets w
    /\ w_fs w' = w_fs w
    /\ w_requests w' = w_requests w
    /\ (hd false (w_faults w) = false ->
        e = ErrNew "Object with same name already exists in bucket").
Proof.
  intros (rest & Hf & Hk)%find_object_filter.
  unfold PutObjectFromReader, objectExists.
  unfold bind at 1. unfold bind at 1. rewrite query_objects_run, Hf.
  unfold key_is in Hk.
  destruct (w_faults w) as [|[] fl]; mrun; rewrite ?Hk; simpl;
    eexists _, _; (split; [reflexivity|]); repeat split; try done.
Qed.

Lemma PutObjectFromReader_conflict_witness :
  exists e w',
    PutObjectFromReader demo (Some (bytes "new data")) "B" "x" 8 3600 one_object
    = (Err e, w')
    /\ w_objects w' = w_objects one_object
    /\ w_buckets w' = w_buckets one_object
    /\ w_fs w' = w_fs one_object
    /\ w_requests w' = w_requests one_object
    /\ (hd false (w_faults one_object) = false ->
        e = ErrNew "Object with same name already exists in bucket").
Proof.
  eapply PutObjectFromReader_conflict. vm_compute. reflexivity.
Defined.

(** ** C8: a put and then a get *)


(** With an empty object name the path of the cache file is the directory
    of the bucket, which the put itself creates: [copyFile] finds it and
    writes nothing, and the get that follows fails to read a directory. *)
Example Put_empty_name_then_Get :
  os.lookup (w_fs fresh_bucket) (cachedFile demo "B" "") = None
  /\ exists w1 w2,
       PutObjectFromReader demo (Some (bytes "data")) "B" "" 4 3600
                           fresh_bucket = (Ok tt, w1)
       /\ os.lookup (w_fs w1) (cachedFile demo "B" "") = Some Directory
       /\ GetObject demo "B" "" 0%nat w1 = (Err ErrFs, w2).
Proof.
  split; [vm_compute; reflexivity|].
  eexists _, _. split; [vm_compute; reflexivity|].
  split; vm_compute; reflexivity.
Qed.

Lemma objectExists_false bucket objectName w w1 :
  objectExists bucket objectName w = (Ok false, w1) ->
  List.filter (key_is bucket objectName) (w_objects w) = []
  /\ w_objects w1 = w_objects w /\ w_fs w1 = w_fs w
  /\ w_written w1 = w_written w.
Proof.
  unfold objectExists, query_objects. mrun. intros H.
  fault_step H.
  destruct (List.filter (key_is bucket objectName) (w_objects w)) as [|r rs];
    simpl in H.
  - by simplify_eq.
  - destruct (_ && _); simplify_eq.
Qed.

Lemma try_Mkdir_spec dir w r w1 :
  try (os.Mkdir dir) w = (r, w1) ->
  w_objects w1 = w_objects w /\ w_written w1 = w_written w
  /\ forall path, filepath.Clean path <> filepath.Clean dir ->
                  os.lookup (w_fs w1) path = os.lookup (w_fs w) path.
Proof.
  unfold os.Mkdir, os.store. mrun. intros H.
  fault_step H; [|by simplify_eq].
  destruct (String.eqb dir ""); [by simplify_eq|].
  simpl in H.
  destruct (os.lookup (w_fs w) dir); [by simplify_eq|].
  destruct (os.is_dir _ _); simplify_eq; simpl; [|done].
  repeat split. intros path Hne. by apply lookup_other.
Qed.






(** ** C9: a get of an object that is neither cached nor uploaded *)

(** C9.  When the record of the object exists with the sentinel in
    [uploaded] and nothing exists at the path of its cache file,
    [GetObject] fails without sending a request to the daemon, and changes
    neither the cache nor the catalog nor what the writer received.  The
    error is the incomplete-upload error of the method whenever the
    database answers the query for the record. *)
Theorem GetObject_incomplete_upload b bucket objectName writer w o :
  find_object bucket objectName (w_objects w) = Some o ->
  Uploaded o = 0 ->
  os.lookup (w_fs w) (cachedFile b bucket objectName) = None ->
  exists e w',
    GetObject b bucket objectName writer w = (Err e, w')
    /\ w_requests w' = w_requests w
    /\ w_fs w' = w_fs w
    /\ w_objects w' = w_objects w
    /\ w_written w' = w_written w
    /\ (hd false (w_faults w) = false ->
        e = ErrNew "Attempting to download incomplete file from Sia").
Proof.
  intros (rest & Hf & Hk)%find_object_filter Hup Hfs.
  unfold GetObject, GetObjectInfo, cachedFile in *.
  unfold bind at 1. unfold bind at 1.
  rewrite query_objects_run, key_is_swap, Hf.
  unfold os.Stat.
  destruct (w_faults w) as [|[] fl]; mrun; simpl; rewrite ?Hfs, ?Hup; simpl;
    eexists _, _; (split; [reflexivity|]); repeat split; try done.
Qed.

Lemma GetObject_incomplete_upload_witness :
  exists e w',
    GetObject demo "B" "x" 0%nat uncached_pending = (Err e, w')
    /\ w_requests w' = w_requests uncached_pending
    /\ w_fs w' = w_fs uncached_pending
    /\ w_objects w' = w_objects uncached_pending
    /\ w_written w' = w_written uncached_pending
    /\ (hd false (w_faults uncached_pending) = false ->
        e = ErrNew "Attempting to download incomplete file from Sia").
Proof.
  eapply GetObject_incomplete_upload; vm_compute; reflexivity.
Defined.

(** ** C10: the fetch fields *)

Lemma never_fetched_invariant : table_invariant (Forall never_fetched).
Proof.
  split.
  - intros t row Ht _ Hrow. apply Forall_app. split; [done|].
    by apply Forall_cons.
  - intros t p Ht. rewrite List.Forall_forall in *.
    intros o [Ho _]%filter_In. by apply Ht.
  - intros t p v Ht. rewrite List.Forall_forall in *.
    intros o' (o & <- & Ho)%in_map_iff. specialize (Ht o Ho).
    by destruct (p o).
  - intros t p v Ht. rewrite List.Forall_forall in *.
    intros o' (o & <- & Ho)%in_map_iff. specialize (Ht o Ho).
    by destruct (p o).
Qed.

Lemma GetObject_objects b bucket objectName writer w w' :
  GetObject b bucket objectName writer w = (Ok tt, w') ->
  exists o,
    find_object bucket objectName (w_objects w) = Some o
    /\ w_objects w'
       = List.map (fun r => if key_is bucket objectName r
                            then set_CachedFetches
                                   (Int64.add (CachedFetches o) 1) r
                            else r) (w_objects w).
Proof.
  set (Q := fun t : list ObjectInfo => t = w_objects w).
  set (I := fun w0 : World => Q (w_objects w0)).
  assert (Hw : I w) by done.
  unfold GetObject. intros H.
  apply bind_inv in H as [(oi & w1 & H1 & H)|(e & _ & ?)]; [|done].
  pose proof (GetObjectInfo_inv _ _ _ _ _ H1) as Hoi. exists oi.
  split; [done|].
  eapply (keeps_run I) in H1; [|clear H1|exact Hw].
  2:{ pose proof (keeps_query_objects Q). unfold GetObjectInfo.
      repeat (first [solve [eauto] | keeps_step]). }
  apply bind_inv in H as [(st & w2 & H2 & H)|(e & _ & ?)]; [|done].
  eapply (keeps_run I) in H2; [|apply keeps_try, (keeps_os_Stat Q)|exact H1].
  destruct st as [sz|e].
  - apply bind_inv in H as [(rd & w3 & H3 & H)|(e & _ & ?)]; [|done].
    eapply (keeps_run I) in H3; [|apply (keeps_os_Open Q)|exact H2].
    apply bind_inv in H as [(u & w4 & H4 & H)|(e & _ & ?)]; [|done].
    eapply (keeps_run I) in H4; [|apply (keeps_io_Copy Q)|exact H3].
    apply updateCachedFetches_run in H. by rewrite H, H4.
  - destruct (Z.eqb _ _); [done|].
    apply bind_inv in H as [(mk & w3 & H3 & H)|(e' & _ & ?)]; [|done].
    eapply (keeps_run I) in H3; [|apply keeps_try, (keeps_os_Mkdir Q)|exact H2].
    apply bind_inv in H as [(dl & w4 & H4 & H)|(e' & _ & ?)]; [|done].
    eapply (keeps_run I) in H4;
      [|apply (keeps_get_renter_download Q)|exact H3].
    apply bind_inv in H as [(rd & w5 & H5 & H)|(e' & _ & ?)]; [|done].
    eapply (keeps_run I) in H5; [|apply (keeps_os_Open Q)|exact H4].
    apply bind_inv in H as [(u & w6 & H6 & H)|(e' & _ & ?)]; [|done].
    eapply (keeps_run I) in H6; [|apply (keeps_io_Copy Q)|exact H5].
    apply updateCachedFetches_run in H. by rewrite H, H6.
Qed.

(** C10.  A [GetObject] that succeeds, from the cache or from the daemon,
    changes the rows of the table [objects] in the field [cached_fetches]
    of the rows of its key, which becomes the old count plus one, and in
    nothing else; and in every world that a run of the bridge reaches, every
    row has [sia_fetches = 0] and [last_fetch = -1], the values
    [insertObject] gave them. *)
Theorem fetch_fields_never_change :
  (forall b bucket objectName writer w w',
      GetObject b bucket objectName writer w = (Ok tt, w') ->
      exists o,
        find_object bucket objectName (w_objects w) = Some o
        /\ w_objects w'
           = List.map (fun r => if key_is bucket objectName r
                                then set_CachedFetches
                                       (Int64.add (CachedFetches o) 1) r
                                else r) (w_objects w))
  /\ (forall b w, reachable b w -> Forall never_fetched (w_objects w)).
Proof.
  split.
  - apply GetObject_objects.
  - intros b w [ops ->].
    apply (run_ops_table_invariant _ never_fetched_invariant).
    by apply Forall_nil.
Qed.

Lemma fetch_fields_never_change_witness :
  (exists o,
      find_object "B" "x" (w_objects one_object) = Some o
      /\ w_objects (snd (GetObject demo "B" "x" 0%nat one_object))
         = List.map (fun r => if key_is "B" "x" r
                              then set_CachedFetches
                                     (Int64.add (CachedFetches o) 1) r
                              else r)
                    (w_objects one_object))
  /\ Forall never_fetched (w_objects one_object).
Proof.
  destruct fetch_fields_never_change as [Hget Hinv]. split.
  - apply (Hget demo "B" "x" 0%nat one_object). vm_compute. reflexivity.
  - apply (Hinv demo). eexists. reflexivity.
Defined.

(** * Further properties of the bridge *)

(** ** What a method leaves alone

    A property of the world that does not look at some of its parts is kept
    by every method that changes only those parts. *)

Create HintDb methods discriminated.

#[local] Hint Unfold Start initDatabase manager checkSiaUploads check_file
  purgeCache purge_object DeleteObject PutObjectFromFile PutObjectFromReader
  GetObject GetObjectInfo ListObjects DeleteBucket ListBuckets GetBucketInfo
  CreateBucket listUploadingObjects markObjectUploaded updateCachedFetches
  insertObject insertBucket objectExists bucketExists copyFile
  getAPI_renter_files post_renter_delete get_renter_download
  post_renter_upload log_request io.CopyToFile io.Copy os.Close os.Sync
  os.Remove os.Open os.Create os.Mkdir os.Stat os.store delete_buckets
  delete_objects update_objects query_buckets query_objects
  readLines appendStringToFile os_OpenFile_append bufio.lines_of : methods.

Section Frame.

Variable P : World -> Prop.

Hypothesis P_faults : forall v w, P w -> P (with_faults v w).
Hypothesis P_fs : forall v w, P w -> P (with_fs v w).
Hypothesis P_requests : forall v w, P w -> P (with_requests v w).
Hypothesis P_written : forall v w, P w -> P (with_written v w).
Hypothesis P_renter : forall v w, P w -> P (with_renter v w).
Hypothesis P_objects : forall v w, P w -> P (with_objects v w).
Hypothesis P_buckets : forall v w, P w -> P (with_buckets v w).

Lemma frame_insert_object row : keeps P (insert_object row).
Proof.
  unfold insert_object. apply keeps_bind; [by apply keeps_fault|intros _].
  intros w Hw. destruct (existsb _ _); simpl; auto.
Qed.

Lemma frame_insert_bucket row : keeps P (insert_bucket row).
Proof.
  unfold insert_bucket. apply keeps_bind; [by apply keeps_fault|intros _].
  intros w Hw. destruct (existsb _ _); simpl; auto.
Qed.

Lemma frame_File_WriteString path s : keeps P (File_WriteString path s).
Proof.
  unfold File_WriteString. apply keeps_bind; [by apply keeps_fault|intros _].
  intros w Hw. destruct (os.lookup _ _) as [[c|]|]; simpl; auto.
Qed.

End Frame.

(** Cuts a method into its calls to the outside and settles each by the
    rules for [keeps]. *)
Ltac frame :=
  autounfold with methods;
  repeat (first [ solve [eauto]
                | apply frame_insert_object
                | apply frame_insert_bucket
                | apply frame_File_WriteString
                | keeps_step ]).

(** ** The table [buckets] *)

Lemma filter_nil_existsb {A : Type} (p : A -> bool) (l : list A) :
  List.filter p l = [] <-> existsb p l = false.
Proof.
  induction l as [|x l IH]; simpl; [done|].
  destruct (p x); simpl; [split; discriminate|done].
Qed.

Lemma bucketExists_run bucket w r w' :
  bucketExists bucket w = (r, w') ->
  w_buckets w' = w_buckets w /\ w_objects w' = w_objects w
  /\ w_fs w' = w_fs w /\ w_clock w' = w_clock w
  /\ forall found, r = Ok found ->
                   found = existsb (bucket_is bucket) (w_buckets w).
Proof.
  unfold bucketExists, query_buckets. mrun. intros H.
  fault_step H; [|by simplify_eq].
  destruct (List.filter (bucket_is bucket) (w_buckets w)) as [|row rest]
    eqn:Hf.
  - simplify_eq. repeat split; try done. intros ? [= <-].
    symmetry. by apply filter_nil_existsb.
  - assert (Hrow : bucket_is bucket row = true).
    { apply (proj1 (filter_In (bucket_is bucket) row (w_buckets w))).
      rewrite Hf. by left. }
    unfold bucket_is in Hrow. rewrite Hrow in H. simplify_eq.
    repeat split; try done. intros ? [= <-].
    destruct (existsb _ _) eqn:He; [done|].
    apply filter_nil_existsb in He. congruence.
Qed.

(** X1.  A [CreateBucket] that succeeds leaves the table [buckets] as it
    was when the bucket was there, and otherwise adds one row for it with
    the time of the call; objects and files are left alone. *)
Theorem CreateBucket_creates_once bucket w w' :
  CreateBucket bucket w = (Ok tt, w') ->
  w_buckets w'
  = (if existsb (bucket_is bucket) (w_buckets w) then w_buckets w
     else w_buckets w ++ [{| BucketInfo.Name := bucket;
                             BucketInfo.Created := w_clock w |}])
  /\ w_objects w' = w_objects w
  /\ w_fs w' = w_fs w.
Proof.
  unfold CreateBucket. intros H.
  apply bind_inv in H as [(found & w1 & H1 & H)|(e & _ & ?)]; [|done].
  apply bucketExists_run in H1 as (Hb & Ho & Hf & Hc & Hfound).
  rewrite (Hfound found eq_refl) in H.
  destruct (existsb (bucket_is bucket) (w_buckets w)) eqn:He.
  - mrun_in H. simplify_eq. done.
  - unfold insertBucket, insert_bucket in H. mrun_in H.
    fault_step H. rewrite Hb in H. simpl in H. rewrite He in H.
    simplify_eq. simpl. by rewrite Hc.
Qed.

Lemma CreateBucket_creates_once_witness :
  w_buckets (snd (CreateBucket "B" one_object))
  = (if existsb (bucket_is "B") (w_buckets one_object)
     then w_buckets one_object
     else w_buckets one_object
          ++ [{| BucketInfo.Name := "B";
                 BucketInfo.Created := w_clock one_object |}])
  /\ w_objects (snd (CreateBucket "B" one_object)) = w_objects one_object
  /\ w_fs (snd (CreateBucket "B" one_object)) = w_fs one_object.
Proof.
  apply CreateBucket_creates_once. vm_compute. reflexivity.
Defined.

Lemma keeps_bucket_names_insert row :
  keeps (fun w => NoDup (List.map BucketInfo.Name (w_buckets w)))
        (insert_bucket row).
Proof.
  unfold insert_bucket. apply keeps_bind; [by apply keeps_fault|intros _].
  intros w Hw. destruct (existsb _ _) eqn:He; simpl; [done|].
  rewrite List.map_app. simpl. apply NoDup_app. split; [done|].
  split; [|apply NoDup_singleton].
  intros name Hin ->%list_elem_of_singleton.
  rewrite list_elem_of_In in Hin. apply in_map_iff in Hin as (r & Hr & Hin).
  assert (existsb (bucket_is (BucketInfo.Name row)) (w_buckets w) = true);
    [|congruence].
  apply existsb_exists. exists r. split; [done|].
  unfold bucket_is. by apply String.eqb_eq.
Qed.

Lemma run_op_bucket_names b op w :
  NoDup (List.map BucketInfo.Name (w_buckets w)) ->
  NoDup (List.map BucketInfo.Name (w_buckets (run_op b op w))).
Proof.
  set (I := fun w : World => NoDup (List.map BucketInfo.Name (w_buckets w))).
  pose proof keeps_bucket_names_insert as Hins. fold I in Hins.
  destruct op; simpl; try done;
    match goal with
    | |- _ -> NoDup (List.map _ (w_buckets (snd (?m w)))) =>
        let Hk := fresh "Hk" in
        assert (Hk : keeps I m); [|exact (Hk w)]
    end; try (frame; fail).
  (* what is left is [DeleteBucket] *)
  unfold DeleteBucket, delete_buckets. apply keeps_bind; [frame|intros _].
  apply keeps_modify. intros w0 Hw0. unfold I in *. simpl.
  by apply NoDup_map_filter.
Qed.

(** X2.  In every world that a run of the bridge reaches, no two rows of
    the table [buckets] have the same name. *)
Theorem reachable_bucket_names_unique b w :
  reachable b w -> NoDup (List.map BucketInfo.Name (w_buckets w)).
Proof.
  intros [ops ->]. unfold run_ops.
  assert (Hinit : NoDup (List.map BucketInfo.Name (w_buckets init)))
    by apply NoDup_nil_2.
  revert Hinit. generalize init.
  induction ops as [|op ops IH]; intros w Hw; simpl; [done|].
  apply IH. by apply run_op_bucket_names.
Qed.

Lemma reachable_bucket_names_unique_witness :
  NoDup (List.map BucketInfo.Name (w_buckets two_pending)).
Proof.
  apply (reachable_bucket_names_unique demo). eexists. reflexivity.
Defined.

(** ** The table [objects] *)

(** X3.  In every world that a run of the bridge reaches, no two rows of
    the table [objects] have the same bucket and name. *)
Theorem reachable_object_keys_unique b w :
  reachable b w -> NoDup (List.map key_of (w_objects w)).
Proof. apply reachable_pk_unique. Qed.

Lemma reachable_object_keys_unique_witness :
  NoDup (List.map key_of (w_objects two_pending)).
Proof.
  apply (reachable_object_keys_unique demo). eexists. reflexivity.
Defined.

Lemma insert_object_run row w r w' :
  insert_object row w = (r, w') ->
  exists l,
    (r = Err ErrDb /\ w' = with_faults l w)
    \/ (r = Ok tt
        /\ existsb (key_is (Bucket row) (Name row)) (w_objects w) = false
        /\ w' = with_objects (w_objects w ++ [row]) (with_faults l w)).
Proof.
  unfold insert_object. mrun. intros H.
  fault_step H; [|simplify_eq; eauto].
  destruct (existsb _ _) eqn:He; simplify_eq; eauto.
Qed.

Lemma post_renter_upload_run addr siaObj source w r w' :
  post_renter_upload addr siaObj source w = (r, w') ->
  exists l,
    w' = with_faults l
           (with_requests
              (w_requests w ++ [HttpPost addr ("/renter/upload/" +:+ siaObj)
                                         ("source=" +:+ source)]) w)
    /\ (r = Ok tt \/ r = Err ErrSiad).
Proof.
  unfold post_renter_upload. mrun. intros H.
  fault_step H; simplify_eq; eauto.
Qed.

(** The two ways in which a put ends: before the insert, with the catalog
    and the log of requests as they were, or after it, with the new row and
    the upload request, whatever the daemon answers. *)
Lemma Put_outcome b data bucket objectName size purge_after w r w' :
  PutObjectFromReader b data bucket objectName size purge_after w = (r, w') ->
  w_buckets w' = w_buckets w
  /\ w_clock w' = w_clock w
  /\ ((w_objects w' = w_objects w /\ w_requests w' = w_requests w
       /\ r <> Ok tt)
      \/ (List.filter (key_is bucket objectName) (w_objects w) = []
          /\ w_objects w'
             = w_objects w
               ++ [{| Bucket := bucket; Name := objectName; Size := size;
                      Queued := w_clock w; Uploaded := 0;
                      PurgeAfter := purge_after; CachedFetches := 0;
                      SiaFetches := 0; LastFetch := -1 |}]
          /\ w_requests w'
             = w_requests w
               ++ [HttpPost (SiadAddress b)
                            ("/renter/upload/" +:+ bucket +:+ "/"
                             +:+ objectName)
                            ("source=" +:+ cachedFile b bucket objectName)]
          /\ (r = Ok tt \/ r = Err ErrSiad))).
Proof.
  set (P := fun w0 : World =>
              w_buckets w0 = w_buckets w /\ w_clock w0 = w_clock w
              /\ w_objects w0 = w_objects w
              /\ w_requests w0 = w_requests w).
  assert (HP : P w) by done.
  assert (Hleft : forall w0 e (Q : Prop), P w0 ->
            w_buckets w0 = w_buckets w /\ w_clock w0 = w_clock w
            /\ ((w_objects w0 = w_objects w /\ w_requests w0 = w_requests w
                 /\ @Err unit e <> Ok tt) \/ Q)).
  { intros w0 e Q (? & ? & ? & ?). split; [done|]. split; [done|].
    left. done. }
  unfold PutObjectFromReader. intros H.
  apply bind_inv in H as [(found & w1 & H1 & H)|(e & H1 & ->)].
  2:{ apply Hleft. eapply (keeps_run P); [|exact HP|exact H1]. frame. }
  assert (HP1 : P w1) by (eapply (keeps_run P); [|exact HP|exact H1]; frame).
  destruct found.
  { mrun_in H. simplify_eq. by apply Hleft. }
  apply objectExists_false in H1 as (Hfilter & _).
  apply bind_inv in H as [(mk & w2 & H2 & H)|(e & H2 & ->)].
  2:{ apply Hleft. eapply (keeps_run P); [|exact HP1|exact H2]. frame. }
  assert (HP2 : P w2) by (eapply (keeps_run P); [|exact HP1|exact H2]; frame).
  apply bind_inv in H as [([] & w3 & H3 & H)|(e & H3 & ->)].
  2:{ apply Hleft. eapply (keeps_run P); [|exact HP2|exact H3]. frame. }
  assert (HP3 : P w3) by (eapply (keeps_run P); [|exact HP2|exact H3]; frame).
  apply bind_inv in H as [(now & w4 & H4 & H)|(e & H4 & ->)]; [|done].
  unfold time_Now_Unix in H4. simplify_eq.
  destruct HP3 as (Hb3 & Hc3 & Ho3 & Hr3).
  apply bind_inv in H as [([] & w5 & H5 & H)|(e & H5 & ->)];
    unfold insertObject in H5;
    apply insert_object_run in H5 as [l [[? ->]|(? & He & ->)]]; try done.
  2:{ apply Hleft. by repeat split. }
  apply post_renter_upload_run in H as [l' [-> Hr]].
  simpl. split; [done|]. split; [done|]. right.
  rewrite Ho3, Hr3, Hc3. done.
Qed.

(** X4.  After a put that succeeds, the catalog has the record of the
    object, with the size and the purge window of the call, the time of the
    call as [queued], the sentinels in [uploaded] and [last_fetch] and both
    counters at zero, and [GetObjectInfo] returns it whenever the database
    answers. *)
Theorem Put_then_GetObjectInfo b data bucket objectName size purge_after
  w w1 :
  PutObjectFromReader b data bucket objectName size purge_after w
  = (Ok tt, w1) ->
  find_object bucket objectName (w_objects w1)
  = Some {| Bucket := bucket; Name := objectName; Size := size;
            Queued := w_clock w; Uploaded := 0; PurgeAfter := purge_after;
            CachedFetches := 0; SiaFetches := 0; LastFetch := -1 |}
  /\ (hd false (w_faults w1) = false ->
      fst (GetObjectInfo bucket objectName w1)
      = Ok {| Bucket := bucket; Name := objectName; Size := size;
              Queued := w_clock w; Uploaded := 0; PurgeAfter := purge_after;
              CachedFetches := 0; SiaFetches := 0; LastFetch := -1 |}).
Proof.
  intros H.
  apply Put_outcome in H
    as (_ & _ & [(_ & _ & ?)|(Hfilter & Hobj & _ & _)]); [done|].
  set (row := {| Bucket := bucket; Name := objectName; Size := size;
                 Queued := w_clock w; Uploaded := 0;
                 PurgeAfter := purge_after; CachedFetches := 0;
                 SiaFetches := 0; LastFetch := -1 |}) in *.
  assert (Hrow : key_is bucket objectName row = true) by by apply key_is_refl.
  assert (Hfind : find_object bucket objectName (w_objects w1) = Some row).
  { rewrite Hobj. by apply find_object_app_new. }
  split; [done|]. intros Hok.
  apply find_object_filter in Hfind as (rest & Hf & _).
  unfold GetObjectInfo. unfold bind at 1.
  rewrite query_objects_run, key_is_swap, Hf.
  destruct (w_faults w1) as [|[] fl]; try done; mrun; simpl;
    by rewrite (set_Bucket_Name_id _ _ _ Hrow).
Qed.

Lemma Put_then_GetObjectInfo_witness :
  find_object "B" "x"
    (w_objects (snd (PutObjectFromReader demo (Some (bytes "data")) "B" "x"
                                         4 3600 fresh_bucket)))
  = Some {| Bucket := "B"; Name := "x"; Size := 4;
            Queued := w_clock fresh_bucket; Uploaded := 0;
            PurgeAfter := 3600; CachedFetches := 0; SiaFetches := 0;
            LastFetch := -1 |}
  /\ (hd false
         (w_faults (snd (PutObjectFromReader demo (Some (bytes "data")) "B"
                                             "x" 4 3600 fresh_bucket)))
      = false ->
      fst (GetObjectInfo "B" "x"
             (snd (PutObjectFromReader demo (Some (bytes "data")) "B" "x"
                                       4 3600 fresh_bucket)))
      = Ok {| Bucket := "B"; Name := "x"; Size := 4;
              Queued := w_clock fresh_bucket; Uploaded := 0;
              PurgeAfter := 3600; CachedFetches := 0; SiaFetches := 0;
              LastFetch := -1 |}).
Proof.
  apply (Put_then_GetObjectInfo demo (Some (bytes "data"))).
  vm_compute. reflexivity.
Defined.

Lemma Put_existing_record b data bucket objectName size purge_after w o :
  find_object bucket objectName (w_objects w) = Some o ->
  exists e w',
    PutObjectFromReader b data bucket objectName size purge_after w
    = (Err e, w')
    /\ w_objects w' = w_objects w
    /\ w_fs w' = w_fs w
    /\ w_requests w' = w_requests w
    /\ (hd false (w_faults w) = false ->
        e = ErrNew "Object with same name already exists in bucket").
Proof.
  intros (rest & Hf & Hk)%find_object_filter.
  unfold PutObjectFromReader, objectExists.
  unfold bind at 1. unfold bind at 1. rewrite query_objects_run, Hf.
  unfold key_is in Hk.
  destruct (w_faults w) as [|[] fl]; mrun; rewrite ?Hk; simpl;
    eexists _, _; (split; [reflexivity|]); repeat split; try done.
Qed.

(** X5.  A put does not roll back: when it fails after the upload request
    was sent, the error is the one of the daemon, the record of the object
    stays in the catalog, and every later put of the same key fails,
    with the conflict error whenever the database answers. *)
Theorem Put_upload_refused_keeps_record b data bucket objectName size
  purge_after w e w' :
  PutObjectFromReader b data bucket objectName size purge_after w
  = (Err e, w') ->
  w_requests w' <> w_requests w ->
  e = ErrSiad
  /\ find_object bucket objectName (w_objects w')
     = Some {| Bucket := bucket; Name := objectName; Size := size;
               Queued := w_clock w; Uploaded := 0; PurgeAfter := purge_after;
               CachedFetches := 0; SiaFetches := 0; LastFetch := -1 |}
  /\ forall data2 size2 purge_after2,
       exists e2 w2,
         PutObjectFromReader b data2 bucket objectName size2 purge_after2 w'
         = (Err e2, w2)
         /\ w_objects w2 = w_objects w'
         /\ (hd false (w_faults w') = false ->
             e2 = ErrNew "Object with same name already exists in bucket").
Proof.
  intros H Hreq.
  apply Put_outcome in H
    as (_ & _ & [(_ & ? & _)|(Hfilter & Hobj & _ & [?| [= ->]])]); try done.
  assert (Hfind : find_object bucket objectName (w_objects w')
                  = Some {| Bucket := bucket; Name := objectName;
                            Size := size; Queued := w_clock w; Uploaded := 0;
                            PurgeAfter := purge_after; CachedFetches := 0;
                            SiaFetches := 0; LastFetch := -1 |}).
  { rewrite Hobj. apply find_object_app_new; [done|]. by apply key_is_refl. }
  split; [done|]. split; [done|].
  intros data2 size2 purge_after2.
  destruct (Put_existing_record b data2 bucket objectName size2 purge_after2
              w' _ Hfind) as (e2 & w2 & H2 & Ho & _ & _ & He).
  eauto.
Qed.

Lemma Put_upload_refused_keeps_record_witness :
  ErrSiad = ErrSiad
  /\ find_object "B" "x"
       (w_objects (snd (PutObjectFromReader demo (Some (bytes "data")) "B" "x"
                                            4 3600 upload_refused)))
     = Some {| Bucket := "B"; Name := "x"; Size := 4;
               Queued := w_clock upload_refused; Uploaded := 0;
               PurgeAfter := 3600; CachedFetches := 0; SiaFetches := 0;
               LastFetch := -1 |}
  /\ forall data2 size2 purge_after2,
       exists e2 w2,
         PutObjectFromReader demo data2 "B" "x" size2 purge_after2
           (snd (PutObjectFromReader demo (Some (bytes "data")) "B" "x"
                                     4 3600 upload_refused))
         = (Err e2, w2)
         /\ w_objects w2
            = w_objects (snd (PutObjectFromReader demo (Some (bytes "data"))
                                                  "B" "x" 4 3600
                                                  upload_refused))
         /\ (hd false
               (w_faults (snd (PutObjectFromReader demo (Some (bytes "data"))
                                                   "B" "x" 4 3600
                                                   upload_refused)))
             = false ->
             e2 = ErrNew "Object with same name already exists in bucket").
Proof.
  apply (Put_upload_refused_keeps_record demo (Some (bytes "data"))).
  - vm_compute. reflexivity.
  - vm_compute. discriminate.
Defined.

Lemma find_object_filter_other (p : ObjectInfo -> bool) bucket objectName t :
  (forall o, key_is bucket objectName o = true -> p o = true) ->
  find_object bucket objectName (List.filter p t)
  = find_object bucket objectName t.
Proof.
  intros Hp. unfold find_object.
  induction t as [|o t IH]; simpl; [done|].
  destruct (key_is bucket objectName o) eqn:Hk.
  - rewrite (Hp o Hk). simpl. by rewrite Hk.
  - destruct (p o); simpl; [by rewrite Hk|done].
Qed.

Lemma find_object_filter_gone bucket objectName t :
  find_object bucket objectName
    (List.filter (fun o => negb (key_is bucket objectName o)) t) = None.
Proof.
  unfold find_object.
  induction t as [|o t IH]; simpl; [done|].
  destruct (key_is bucket objectName o) eqn:Hk; simpl; [done|].
  by rewrite Hk.
Qed.

(** X6.  Unless the database refuses the [DELETE], [DeleteObject] removes
    the record of the object, whatever the daemon answers to the delete
    request that follows; the records of the other objects, the buckets
    and every file of the cache, the cache file of the object among them,
    are left as they were. *)
Theorem DeleteObject_removes_record_only b bucket objectName w r w' :
  DeleteObject b bucket objectName w = (r, w') ->
  r <> Err ErrDb ->
  find_object bucket objectName (w_objects w') = None
  /\ (forall bucket2 name2,
         (bucket2, name2) <> (bucket, objectName) ->
         find_object bucket2 name2 (w_objects w')
         = find_object bucket2 name2 (w_objects w))
  /\ w_fs w' = w_fs w
  /\ w_buckets w' = w_buckets w
  /\ w_requests w'
     = w_requests w
       ++ [HttpPost (SiadAddress b)
                    ("/renter/delete/" +:+ bucket +:+ "/" +:+ objectName) ""].
Proof.
  unfold DeleteObject, delete_objects, post_renter_delete. mrun. intros H Hr.
  fault_step H; [|by simplify_eq].
  fault_step H; simplify_eq; simpl;
    (split; [apply find_object_filter_gone|]);
    (split; [|done]);
    intros bucket2 name2 Hne; apply find_object_filter_other;
    intros o Hk2; apply negb_true_iff;
    destruct (key_is bucket objectName o) eqn:Hk; try done;
    apply key_is_key_of in Hk, Hk2; congruence.
Qed.

Lemma DeleteObject_removes_record_only_witness :
  find_object "B" "x" (w_objects (snd (DeleteObject demo "B" "x" one_object)))
  = None
  /\ (forall bucket2 name2,
         (bucket2, name2) <> ("B", "x") ->
         find_object bucket2 name2
           (w_objects (snd (DeleteObject demo "B" "x" one_object)))
         = find_object bucket2 name2 (w_objects one_object))
  /\ w_fs (snd (DeleteObject demo "B" "x" one_object)) = w_fs one_object
  /\ w_buckets (snd (DeleteObject demo "B" "x" one_object))
     = w_buckets one_object
  /\ w_requests (snd (DeleteObject demo "B" "x" one_object))
     = w_requests one_object
       ++ [HttpPost (SiadAddress demo)
                    ("/renter/delete/" +:+ "B" +:+ "/" +:+ "x") ""].
Proof.
  apply (DeleteObject_removes_record_only demo "B" "x" one_object (Ok tt)).
  - vm_compute. reflexivity.
  - discriminate.
Defined.

(** ** [GetObject] *)

Lemma find_object_None_filter bucket objectName t :
  find_object bucket objectName t = None ->
  List.filter (key_is bucket objectName) t = [].
Proof.
  unfold find_object. rewrite find_filter.
  by destruct (List.filter _ t).
Qed.

(** X7.  For a key without a record, [GetObject] fails, with the error
    that the object does not exist whenever the database answers; it sends
    nothing to the daemon, gives nothing to the writer and leaves the cache
    and the catalog as they were. *)
Theorem GetObject_missing_record b bucket objectName writer w :
  find_object bucket objectName (w_objects w) = None ->
  exists e w',
    GetObject b bucket objectName writer w = (Err e, w')
    /\ w_requests w' = w_requests w
    /\ w_written w' = w_written w
    /\ w_fs w' = w_fs w
    /\ w_objects w' = w_objects w
    /\ (hd false (w_faults w) = false ->
        e = ErrNew "Object does not exist in bucket").
Proof.
  intros Hf%find_object_None_filter.
  unfold GetObject, GetObjectInfo.
  unfold bind at 1. unfold bind at 1.
  rewrite query_objects_run, key_is_swap, Hf.
  destruct (w_faults w) as [|[] fl]; mrun; simpl;
    eexists _, _; (split; [reflexivity|]); repeat split; try done.
Qed.

Lemma GetObject_missing_record_witness :
  exists e w',
    GetObject demo "B" "x" 0%nat fresh_bucket = (Err e, w')
    /\ w_requests w' = w_requests fresh_bucket
    /\ w_written w' = w_written fresh_bucket
    /\ w_fs w' = w_fs fresh_bucket
    /\ w_objects w' = w_objects fresh_bucket
    /\ (hd false (w_faults fresh_bucket) = false ->
        e = ErrNew "Object does not exist in bucket").
Proof.
  apply GetObject_missing_record. vm_compute. reflexivity.
Defined.

(** X8.  When the record of the object exists and a file is at the path of
    its cache file, a [GetObject] during which no call to the outside fails
    succeeds from the cache, uploaded or not: the writer receives the bytes
    of that file, nothing is sent to the daemon, the files stay as they
    are, and [cached_fetches] of the object goes up by one (wrapping at the
    end of [int64]). *)
Theorem GetObject_from_cache b bucket objectName writer w o content :
  find_object bucket objectName (w_objects w) = Some o ->
  os.lookup (w_fs w) (cachedFile b bucket objectName) = Some (File content) ->
  w_faults w = [] ->
  exists w',
    GetObject b bucket objectName writer w = (Ok tt, w')
    /\ received writer w' = received writer w ++ content
    /\ w_requests w' = w_requests w
    /\ w_fs w' = w_fs w
    /\ w_objects w'
       = List.map (fun r => if key_is bucket objectName r
                            then set_CachedFetches
                                   (Int64.add (CachedFetches o) 1) r
                            else r) (w_objects w).
Proof.
  intros (rest & Hf & Hk)%find_object_filter Hfile Hfl.
  unfold cachedFile in Hfile.
  unfold GetObject, GetObjectInfo.
  unfold bind at 1. unfold bind at 1.
  rewrite query_objects_run, Hfl, key_is_swap, Hf.
  unfold os.Stat, os.Open, io.Copy, updateCachedFetches, update_objects.
  mrun. rewrite (set_Bucket_Name_id _ _ _ Hk), Hfile. mrun.
  rewrite fault_nil by exact Hfl. rewrite Hfile.
  rewrite fault_nil by exact Hfl.
  rewrite fault_nil by exact Hfl. wsimpl.
  eexists. split; [reflexivity|]. wsimpl. unfold received. wsimpl.
  split; [by rewrite lookup_insert_eq|]. done.
Qed.

Lemma GetObject_from_cache_witness :
  exists w',
    GetObject demo "B" "x" 0%nat one_object = (Ok tt, w')
    /\ received 0%nat w' = received 0%nat one_object ++ bytes "old data"
    /\ w_requests w' = w_requests one_object
    /\ w_fs w' = w_fs one_object
    /\ w_objects w'
       = List.map (fun r => if key_is "B" "x" r
                            then set_CachedFetches
                                   (Int64.add
                                      (CachedFetches
                                         {| Bucket := "B"; Name := "x";
                                            Size := 8; Queued := 50;
                                            Uploaded := 0; PurgeAfter := 3600;
                                            CachedFetches := 0;
                                            SiaFetches := 0;
                                            LastFetch := -1 |}) 1) r
                            else r) (w_objects one_object).
Proof.
  apply GetObject_from_cache; vm_compute; reflexivity.
Defined.

(** X9.  The counter [cached_fetches] wraps: a [GetObject] that succeeds on
    an object whose counter is at the largest [int64] leaves it at the
    smallest. *)
Theorem GetObject_counter_wraps b bucket objectName writer w w' o :
  find_object bucket objectName (w_objects w) = Some o ->
  CachedFetches o = Int64.max ->
  GetObject b bucket objectName writer w = (Ok tt, w') ->
  exists o',
    find_object bucket objectName (w_objects w') = Some o'
    /\ CachedFetches o' = Int64.min.
Proof.
  intros Hf Hmax (o1 & Hf1 & Hobj)%GetObject_objects.
  assert (o1 = o) as -> by congruence.
  exists (set_CachedFetches (Int64.add (CachedFetches o) 1) o).
  rewrite Hobj, find_object_map_key, Hf by done.
  split; [done|]. simpl. rewrite Hmax. reflexivity.
Qed.

Lemma GetObject_counter_wraps_witness :
  exists o',
    find_object "B" "x"
      (w_objects (snd (GetObject demo "B" "x" 0%nat counter_at_max)))
    = Some o'
    /\ CachedFetches o' = Int64.min.
Proof.
  apply (GetObject_counter_wraps demo "B" "x" 0%nat counter_at_max _
           {| Bucket := "B"; Name := "x"; Size := 8; Queued := 50;
              Uploaded := 0; PurgeAfter := 3600;
              CachedFetches := Int64.max; SiaFetches := 0;
              LastFetch := -1 |}); vm_compute; reflexivity.
Defined.

(** ** [purgeCache] *)

(** X10.  A pass of [purgeCache], however it ends, changes nothing but
    files: the two tables, the log of requests to the daemon, the files of
    the daemon and what the writers received are as before. *)
Theorem purgeCache_changes_files_only b w :
  w_objects (snd (purgeCache b w)) = w_objects w
  /\ w_buckets (snd (purgeCache b w)) = w_buckets w
  /\ w_requests (snd (purgeCache b w)) = w_requests w
  /\ w_renter (snd (purgeCache b w)) = w_renter w
  /\ w_written (snd (purgeCache b w)) = w_written w.
Proof.
  set (P := fun w0 : World =>
              w_objects w0 = w_objects w /\ w_buckets w0 = w_buckets w
              /\ w_requests w0 = w_requests w /\ w_renter w0 = w_renter w
              /\ w_written w0 = w_written w).
  assert (Hk : keeps P (purgeCache b)) by frame.
  by apply (Hk w).
Qed.

Lemma ListObjects_rows_bucket bucket w objs w1 :
  ListObjects bucket w = (Ok objs, w1) ->
  forall o, In o objs -> In o (w_objects w) /\ Bucket o = bucket.
Proof.
  unfold ListObjects, query_objects. mrun. intros H.
  fault_step H. simplify_eq.
  intros o (r & <- & [Hr Hb]%filter_In)%in_map_iff.
  apply String.eqb_eq in Hb. destruct r; simpl in *. by subst.
Qed.

Lemma ListBuckets_rows w buckets w1 :
  ListBuckets w = (Ok buckets, w1) ->
  forall bucket, In bucket buckets -> In bucket (w_buckets w).
Proof.
  unfold ListBuckets, query_buckets. mrun. intros H.
  fault_step H. simplify_eq.
  by intros bucket [Hin _]%filter_In.
Qed.

Section PurgeListed.

Variable b : SiaBridge.
Variable w0 : World.
Variable path : string.

(** What is at [path] differs from the start only if the cache file of a
    durable object of a listed bucket, due for the purge, is kept there. *)
Let listed_due (w : World) : Prop :=
  w_objects w = w_objects w0 /\ w_buckets w = w_buckets w0
  /\ w_clock w = w_clock w0
  /\ (os.lookup (w_fs w) path <> os.lookup (w_fs w0) path ->
      exists o bucket,
        In o (w_objects w0)
        /\ In bucket (w_buckets w0)
        /\ BucketInfo.Name bucket = Bucket o
        /\ Uploaded o <> 0
        /\ purge_due (w_clock w0) o = true
        /\ filepath.Clean path
           = filepath.Clean (cachedFile b (Bucket o) (Name o))).

Lemma keeps_listed_purge_object o bucket :
  In o (w_objects w0) -> In bucket (w_buckets w0) ->
  BucketInfo.Name bucket = Bucket o ->
  keeps listed_due (purge_object b o).
Proof.
  intros Ho Hbucket Hname w (Hobj & Hbk & Hck & Hfs).
  rewrite purge_object_run.
  destruct (purge_due (w_clock w) o) eqn:Hdue; [|done]. wsimpl.
  destruct (Remove_fs (abs (cachedFile b (Bucket o) (Name o))) w)
    as [Hobj' Hfs'].
  assert (Hbk' : w_buckets (snd (os.Remove (abs (cachedFile b (Bucket o)
                                                            (Name o))) w))
                 = w_buckets w).
  { assert (Hk : keeps (fun w1 => w_buckets w1 = w_buckets w)
                       (os.Remove (abs (cachedFile b (Bucket o) (Name o)))))
      by frame.
    by apply (Hk w). }
  split; [congruence|]. split; [congruence|].
  split; [by rewrite Remove_clock|].
  intros Hdiff.
  destruct (decide (filepath.Clean path
                    = filepath.Clean (cachedFile b (Bucket o) (Name o))))
    as [Heq|Hne].
  - exists o, bucket. rewrite Hck in Hdue. repeat split; try done.
    intros H0. unfold purge_due in Hdue. by rewrite H0 in Hdue.
  - apply Hfs. destruct Hfs' as [Hsame|Hdel]; rewrite ?Hsame, ?Hdel in Hdiff;
      [done|].
    by rewrite lookup_deleted in Hdiff.
Qed.

Lemma keeps_listed_purgeCache : keeps listed_due (purgeCache b).
Proof.
  assert (Hf : forall l w, listed_due w -> listed_due (with_faults l w))
    by done.
  unfold purgeCache.
  apply (keeps_bind_val _ (fun buckets =>
           forall bucket, In bucket buckets -> In bucket (w_buckets w0))).
  { frame. }
  { intros w buckets w1 (_ & Hbk & _) Hrun. rewrite <- Hbk.
    by apply (ListBuckets_rows _ _ _ Hrun). }
  intros buckets Hbuckets. apply keeps_foreach_In. intros bucket Hbucket.
  apply (keeps_bind_val _ (fun objs =>
           forall o, In o objs ->
                     In o (w_objects w0)
                     /\ Bucket o = BucketInfo.Name bucket)).
  - frame.
  - intros w objs w1 (Hobj & _) Hrun. rewrite <- Hobj.
    by apply (ListObjects_rows_bucket _ _ _ _ Hrun).
  - intros objs Hobjs. apply keeps_foreach_In. intros o Ho.
    destruct (Hobjs o Ho) as [Hin Hb].
    by apply (keeps_listed_purge_object o bucket); auto.
Qed.

End PurgeListed.

(** X11.  A pass of [purgeCache], however it ends, changes what is at a
    path only if that is the path of the cache file of some object that is
    marked uploaded, is due by the test of the pass, and whose bucket has a
    row in the table [buckets].  The cache file of a pending object, or of
    an object whose bucket record is gone, can therefore go only when such
    an object has the same cache file. *)
Theorem purgeCache_changes_only_listed_durable b w path :
  os.lookup (w_fs (snd (purgeCache b w))) path <> os.lookup (w_fs w) path ->
  exists o bucket,
    In o (w_objects w)
    /\ In bucket (w_buckets w)
    /\ BucketInfo.Name bucket = Bucket o
    /\ Uploaded o <> 0
    /\ purge_due (w_clock w) o = true
    /\ filepath.Clean path = filepath.Clean (cachedFile b (Bucket o) (Name o)).
Proof.
  intros Hdiff.
  destruct (keeps_listed_purgeCache b w path w) as (_ & _ & _ & H);
    [by repeat split|].
  by apply H.
Qed.

Lemma purgeCache_changes_only_listed_durable_witness :
  exists o bucket,
    In o (w_objects durable_forever)
    /\ In bucket (w_buckets durable_forever)
    /\ BucketInfo.Name bucket = Bucket o
    /\ Uploaded o <> 0
    /\ purge_due (w_clock durable_forever) o = true
    /\ filepath.Clean (cachedFile demo "B" "x")
       = filepath.Clean (cachedFile demo (Bucket o) (Name o)).
Proof.
  apply purgeCache_changes_only_listed_durable. vm_compute. discriminate.
Defined.

Lemma with_fs_same w : with_fs (w_fs w) w = w.
Proof. by destruct w. Qed.

(** With no failure left in the schedule, [os.Remove] changes the files
    only, and a file at the path is gone afterwards. *)
Lemma Remove_quiet path w :
  w_faults w = [] ->
  exists r fs',
    os.Remove path w = (r, with_fs fs' w)
    /\ (forall k, fs' !! k = w_fs w !! k \/ fs' !! k = None)
    /\ (path <> "" -> os.always_dir (filepath.Clean path) = false ->
        w_fs w !! filepath.Clean path <> Some Directory ->
        fs' !! filepath.Clean path = None).
Proof.
  intros Hq. unfold os.Remove. mrun. rewrite fault_nil by exact Hq.
  destruct (String.eqb path "") eqn:Hp; simpl.
  { exists (Err ErrFs), (w_fs w). rewrite with_fs_same.
    split; [done|]. split; [auto|]. intros Hne.
    by apply String.eqb_neq in Hne; rewrite Hne in Hp. }
  destruct (os.always_dir _) eqn:Hd; simpl.
  { exists (Err ErrFs), (w_fs w). rewrite with_fs_same.
    split; [done|]. split; [auto|]. done. }
  assert (Hdel : forall k, delete (filepath.Clean path) (w_fs w) !! k
                           = w_fs w !! k
                           \/ delete (filepath.Clean path) (w_fs w) !! k
                              = None).
  { intros k. destruct (decide (k = filepath.Clean path)) as [->|Hne].
    - right. apply lookup_delete_eq.
    - left. by apply lookup_delete_ne. }
  destruct (w_fs w !! filepath.Clean path) as [[c|]|] eqn:Hk.
  - exists (Ok tt), (delete (filepath.Clean path) (w_fs w)).
    split; [done|]. split; [done|]. intros _ _ _. apply lookup_delete_eq.
  - destruct (os.has_entries _ _).
    + exists (Err ErrFs), (w_fs w). rewrite with_fs_same.
      split; [done|]. split; [auto|]. done.
    + exists (Ok tt), (delete (filepath.Clean path) (w_fs w)).
      split; [done|]. split; [done|]. done.
  - exists (Err ErrFs), (w_fs w). rewrite with_fs_same.
    split; [done|]. split; [auto|]. done.
Qed.

Section EvictDue.

Variable b : SiaBridge.

(** The cache path of the object is one that [os.Remove] accepts. *)
Let removable (o : ObjectInfo) : Prop :=
  cachedFile b (Bucket o) (Name o) <> ""
  /\ os.always_dir (filepath.Clean (cachedFile b (Bucket o) (Name o))) = false.

Let key (o : ObjectInfo) : string :=
  filepath.Clean (cachedFile b (Bucket o) (Name o)).

(** [fs'] is [fs] with some entries removed. *)
Let shrunk (fs fs' : gmap string node) : Prop :=
  forall k, fs' !! k = fs !! k \/ fs' !! k = None.

Lemma shrunk_trans fs1 fs2 fs3 : shrunk fs1 fs2 -> shrunk fs2 fs3 -> shrunk fs1 fs3.
Proof.
  intros H12 H23 k. destruct (H23 k) as [H|H]; [|by right].
  rewrite H. apply H12.
Qed.

Lemma shrunk_not_dir fs fs' k :
  shrunk fs fs' -> fs !! k <> Some Directory -> fs' !! k <> Some Directory.
Proof. intros H Hk. destruct (H k) as [Heq|Heq]; by rewrite Heq. Qed.

Lemma shrunk_None fs fs' k : shrunk fs fs' -> fs !! k = None -> fs' !! k = None.
Proof. intros H Hk. destruct (H k) as [Heq|Heq]; by rewrite Heq. Qed.

Lemma purge_object_quiet o w :
  w_faults w = [] ->
  exists fs',
    purge_object b o w = (Ok tt, with_fs fs' w)
    /\ shrunk (w_fs w) fs'
    /\ (purge_due (w_clock w) o = true -> removable o ->
        w_fs w !! key o <> Some Directory -> fs' !! key o = None).
Proof.
  intros Hq. rewrite purge_object_run.
  destruct (purge_due (w_clock w) o).
  - destruct (Remove_quiet (abs (cachedFile b (Bucket o) (Name o))) w Hq)
      as (r & fs' & Hrun & Hsh & Hgone).
    exists fs'. rewrite Hrun. split; [done|]. split; [done|].
    intros _ [Hne Hd]. by apply Hgone.
  - exists (w_fs w). rewrite with_fs_same. split; [done|].
    split; [by left|done].
Qed.

Lemma purge_objects_quiet objs w :
  w_faults w = [] ->
  exists fs',
    foreach objs (purge_object b) w = (Ok tt, with_fs fs' w)
    /\ shrunk (w_fs w) fs'
    /\ (forall o, In o objs -> purge_due (w_clock w) o = true -> removable o ->
                  w_fs w !! key o <> Some Directory -> fs' !! key o = None).
Proof.
  revert w. induction objs as [|o1 objs IH]; intros w Hq; simpl.
  { exists (w_fs w). rewrite with_fs_same. split; [done|].
    split; [by left|done]. }
  destruct (purge_object_quiet o1 w Hq) as (fs1 & Hrun1 & Hsh1 & Hgone1).
  destruct (IH (with_fs fs1 w) Hq) as (fs' & Hrun & Hsh & Hgone).
  exists fs'. rewrite (bind_Ok _ _ _ _ _ Hrun1), Hrun.
  split; [by destruct w|]. split; [by apply (shrunk_trans _ fs1)|].
  intros o [<-|Hin] Hdue Hrem Hnd.
  - apply (shrunk_None fs1); [done|]. by apply Hgone1.
  - apply Hgone; try done. by apply (shrunk_not_dir (w_fs w)).
Qed.

Lemma ListObjects_quiet bucket w :
  w_faults w = [] ->
  ListObjects bucket w
  = (Ok (List.map (set_Bucket bucket)
           (List.filter (fun o => String.eqb (Bucket o) bucket) (w_objects w))),
     w).
Proof.
  intros Hq. unfold ListObjects. mrun. rewrite query_objects_run. by rewrite Hq.
Qed.

Lemma purge_buckets_quiet buckets w :
  w_faults w = [] ->
  exists fs',
    foreach buckets (fun bucket =>
      let* objects := ListObjects (BucketInfo.Name bucket) in
      foreach objects (purge_object b)) w
    = (Ok tt, with_fs fs' w)
    /\ shrunk (w_fs w) fs'
    /\ (forall bucket o,
          In bucket buckets -> In o (w_objects w) ->
          BucketInfo.Name bucket = Bucket o ->
          purge_due (w_clock w) o = true -> removable o ->
          w_fs w !! key o <> Some Directory -> fs' !! key o = None).
Proof.
  revert w. induction buckets as [|b1 buckets IH]; intros w Hq; simpl.
  { exists (w_fs w). rewrite with_fs_same. split; [done|].
    split; [by left|done]. }
  set (objs := List.map (set_Bucket (BucketInfo.Name b1))
                 (List.filter (fun o => String.eqb (Bucket o)
                                                   (BucketInfo.Name b1))
                              (w_objects w))).
  destruct (purge_objects_quiet objs w Hq) as (fs1 & Hrun1 & Hsh1 & Hgone1).
  destruct (IH (with_fs fs1 w) Hq) as (fs' & Hrun & Hsh & Hgone).
  exists fs'.
  assert (Hbody : (let* objects := ListObjects (BucketInfo.Name b1) in
                   foreach objects (purge_object b)) w
                  = (Ok tt, with_fs fs1 w)).
  { by rewrite (bind_Ok _ _ _ _ _ (ListObjects_quiet _ w Hq)). }
  rewrite (bind_Ok _ _ _ _ _ Hbody), Hrun.
  split; [by destruct w|]. split; [by apply (shrunk_trans _ fs1)|].
  intros bucket o [<-|Hin] Ho Hname Hdue Hrem Hnd.
  - apply (shrunk_None fs1); [done|]. apply Hgone1; try done.
    apply in_map_iff. exists o. split.
    + rewrite Hname. by destruct o.
    + apply filter_In. split; [done|]. by apply String.eqb_eq.
  - apply (Hgone bucket); try done. by apply (shrunk_not_dir (w_fs w)).
Qed.

End EvictDue.

Lemma purgeCache_quiet b w bucket o content :
  w_faults w = [] ->
  In bucket (w_buckets w) ->
  In o (w_objects w) ->
  BucketInfo.Name bucket = Bucket o ->
  purge_due (w_clock w) o = true ->
  os.lookup (w_fs w) (cachedFile b (Bucket o) (Name o)) = Some (File content) ->
  exists w',
    purgeCache b w = (Ok tt, w')
    /\ os.lookup (w_fs w') (cachedFile b (Bucket o) (Name o)) = None
    /\ w_objects w' = w_objects w.
Proof.
  intros Hq Hbucket Ho Hname Hdue Hfile.
  destruct (purge_buckets_quiet b (w_buckets w) w Hq)
    as (fs' & Hrun & _ & Hgone).
  exists (with_fs fs' w). split; [|split; [|done]].
  - unfold purgeCache, ListBuckets. unfold query_buckets at 1. mrun.
    rewrite fault_nil by exact Hq.
    replace (List.filter (fun _ => true) (w_buckets w)) with (w_buckets w);
      [exact Hrun|].
    clear. induction (w_buckets w) as [|x l IH]; simpl; congruence.
  - revert Hfile. unfold os.lookup. wsimpl.
    destruct (String.eqb _ "") eqn:Hp; [done|].
    destruct (os.always_dir _) eqn:Hd; [done|].
    intros Hfile. apply (Hgone bucket); try done.
    + split; [|done]. intros Hnil. by rewrite Hnil in Hp.
    + by rewrite Hfile.
Qed.

(** X12.  When no call to the outside fails, a pass of [purgeCache]
    succeeds and removes the cache file of every object that is due by its
    test and whose bucket has a row in the table [buckets]; the record of
    the object stays. *)
Theorem purgeCache_evicts_due b w bucket o content :
  w_faults w = [] ->
  In bucket (w_buckets w) ->
  In o (w_objects w) ->
  BucketInfo.Name bucket = Bucket o ->
  purge_due (w_clock w) o = true ->
  os.lookup (w_fs w) (cachedFile b (Bucket o) (Name o)) = Some (File content) ->
  exists w',
    purgeCache b w = (Ok tt, w')
    /\ os.lookup (w_fs w') (cachedFile b (Bucket o) (Name o)) = None
    /\ w_objects w' = w_objects w.
Proof. apply purgeCache_quiet. Qed.

Lemma purgeCache_evicts_due_witness :
  exists w',
    purgeCache demo durable_forever = (Ok tt, w')
    /\ os.lookup (w_fs w') (cachedFile demo "B" "x") = None
    /\ w_objects w' = w_objects durable_forever.
Proof.
  apply (purgeCache_evicts_due demo durable_forever
           {| BucketInfo.Name := "B"; BucketInfo.Created := 0 |}
           {| Bucket := "B"; Name := "x"; Size := 4; Queued := 50;
              Uploaded := 100; PurgeAfter := 0; CachedFetches := 0;
              SiaFetches := 0; LastFetch := -1 |}
           (bytes "data")); vm_compute; auto.
Defined.

(** ** [checkSiaUploads] *)

Lemma find_object_map_other bucket objectName (g : ObjectInfo -> ObjectInfo) t :
  (forall o, key_is bucket objectName (g o) = key_is bucket objectName o) ->
  (forall o, key_is bucket objectName o = true -> g o = o) ->
  find_object bucket objectName (List.map g t)
  = find_object bucket objectName t.
Proof.
  intros Hkey Hid. unfold find_object.
  induction t as [|o t IH]; simpl; [done|].
  rewrite Hkey. destruct (key_is bucket objectName o) eqn:Hk; [|done].
  by rewrite Hid.
Qed.

Lemma keeps_find_mark_other bucket objectName o bucket' objectName' :
  (bucket', objectName') <> (bucket, objectName) ->
  keeps (fun w => find_object bucket objectName (w_objects w) = Some o)
        (markObjectUploaded bucket' objectName').
Proof.
  intros Hne w Hw.
  destruct (markObjectUploaded_any bucket' objectName' w) as [_ [->| ->]];
    [done|].
  rewrite find_object_map_other; [done| |].
  - intros r. by destruct (key_is bucket' objectName' r).
  - intros r [Hb Hn]%key_is_eq.
    destruct (key_is bucket' objectName' r) eqn:Hk; [|done].
    apply key_is_eq in Hk as [Hb' Hn']. exfalso. apply Hne. congruence.
Qed.

(** X13.  A pass of [checkSiaUploads], however it ends, leaves the record
    of an object as it is when the daemon does not list the object as
    available: such an object is never marked uploaded. *)
Theorem checkSiaUploads_skips_unavailable b w r w' bucket objectName o :
  find_object bucket objectName (w_objects w) = Some o ->
  ~ available (w_renter w) o ->
  checkSiaUploads b w = (r, w') ->
  find_object bucket objectName (w_objects w') = Some o.
Proof.
  intros Hf Hna H.
  apply checkSiaUploads_inv in H as [[-> _]|(w2 & Ho2 & _ & H)]; [done|].
  assert (Hk : keeps (fun w0 => find_object bucket objectName (w_objects w0)
                                = Some o)
                     (foreach (List.filter pending (w_objects w))
                        (fun obj => foreach (w_renter w) (check_file obj)))).
  { apply keeps_foreach. intros obj. apply keeps_foreach_In. intros f Hin.
    unfold check_file.
    destruct (String.eqb_spec (SiaPath f) (Bucket obj +:+ "/" +:+ Name obj))
      as [Hpath|]; simpl; [|apply keeps_ret].
    destruct (Available f) eqn:Hav; [|apply keeps_ret].
    apply keeps_find_mark_other. intros [= Hb Hn]. apply Hna.
    destruct (find_object_filter _ _ _ _ Hf) as (_ & _ & [Hbo Hno]%key_is_eq).
    exists f. repeat split; [done| |done]. congruence. }
  apply (keeps_run _ _ _ _ _ Hk) in H; [done|]. by rewrite Ho2.
Qed.

Lemma checkSiaUploads_skips_unavailable_witness :
  find_object "B" "x"
    (w_objects (snd (checkSiaUploads demo one_object)))
  = Some {| Bucket := "B"; Name := "x"; Size := 8; Queued := 50;
            Uploaded := 0; PurgeAfter := 3600; CachedFetches := 0;
            SiaFetches := 0; LastFetch := -1 |}.
Proof.
  apply (checkSiaUploads_skips_unavailable demo one_object
           (fst (checkSiaUploads demo one_object))).
  - vm_compute. reflexivity.
  - intros (f & Hin & _). vm_compute in Hin. exact Hin.
  - by destruct (checkSiaUploads demo one_object).
Defined.

(** X14.  A pass of [checkSiaUploads], however it ends, changes no file,
    no bucket, nothing the daemon holds and nothing a writer received, and
    of the table [objects] the column [uploaded] only: the rows, their
    order and their other columns stay. *)
Theorem checkSiaUploads_changes_uploaded_only b w :
  w_fs (snd (checkSiaUploads b w)) = w_fs w
  /\ w_buckets (snd (checkSiaUploads b w)) = w_buckets w
  /\ w_renter (snd (checkSiaUploads b w)) = w_renter w
  /\ w_written (snd (checkSiaUploads b w)) = w_written w
  /\ List.map (set_Uploaded 0) (w_objects (snd (checkSiaUploads b w)))
     = List.map (set_Uploaded 0) (w_objects w).
Proof.
  set (P := fun w0 : World =>
              w_fs w0 = w_fs w /\ w_buckets w0 = w_buckets w
              /\ w_renter w0 = w_renter w /\ w_written w0 = w_written w).
  assert (Hk : keeps P (checkSiaUploads b)) by frame.
  destruct (Hk w) as (Hfs & Hbk & Hrn & Hwr); [done|].
  repeat split; try done.
  destruct (checkSiaUploads b w) as [r w'] eqn:Hrun.
  apply checkSiaUploads_reconciled in Hrun. simpl.
  unfold reconciled in Hrun. symmetry.
  induction Hrun as [|o o' t t' Ho _ IH]; simpl; [done|].
  f_equal; [|done]. by destruct Ho as [->|[-> _]].
Qed.





(** ** [copyFile] *)

Lemma copyFile_existing_noop input dst w :
  os.lookup (w_fs w) dst <> None -> copyFile input dst w = (Ok tt, w).
Proof.
  intros H. unfold copyFile, os.Stat. mrun.
  destruct (os.lookup (w_fs w) dst) as [[c|]|]; mrun; congruence.
Qed.

(** X16.  [copyFile] to a path where nothing is changes no other path.
    When it succeeds, the file at the path holds the bytes of the reader.
    When it fails, either nothing is at the path still, or a file is left
    there, and then every later [copyFile] to the path returns no error
    and writes nothing. *)
Theorem copyFile_absent_outcome input dst w r w' :
  os.lookup (w_fs w) dst = None ->
  copyFile input dst w = (r, w') ->
  (forall path, filepath.Clean path <> filepath.Clean dst ->
                os.lookup (w_fs w') path = os.lookup (w_fs w) path)
  /\ match r with
     | Ok _ =>
         exists data,
           input = Some data /\ os.lookup (w_fs w') dst = Some (File data)
     | Err _ =>
         os.lookup (w_fs w') dst = None
         \/ ((exists content, os.lookup (w_fs w') dst = Some (File content))
             /\ forall input2, copyFile input2 dst w' = (Ok tt, w'))
     end.
Proof.
  intros Hno. unfold copyFile at 1. unfold os.Stat. mrun. rewrite Hno.
  unfold os.Create, os.Sync, os.Close, io.CopyToFile, os.store. mrun.
  intros H.
  fault_step H; [|by simplify_eq; split; [|left]].
  destruct (String.eqb dst "") eqn:Hdst; [by simplify_eq; split; [|left]|].
  apply String.eqb_neq in Hdst.
  simpl in H. rewrite Hno in H.
  destruct (os.is_dir _ _); [|by simplify_eq; split; [|left]].
  destruct (lookup_None_inv _ _ Hdst Hno) as [Hd _].
  assert (Hleft : forall c w1,
            os.lookup (w_fs w1) dst = Some (File c) ->
            (exists content, os.lookup (w_fs w1) dst = Some (File content))
            /\ forall input2, copyFile input2 dst w1 = (Ok tt, w1)).
  { intros c w1 Hnew. split; [eauto|]. intros input2.
    apply copyFile_existing_noop. by rewrite Hnew. }
  assert (Hother : forall c path,
            filepath.Clean path <> filepath.Clean dst ->
            os.lookup (<[filepath.Clean dst := File c]> (w_fs w)) path
            = os.lookup (w_fs w) path).
  { intros c path Hne. by apply lookup_other. }
  assert (Hother2 : forall c c2 path,
            filepath.Clean path <> filepath.Clean dst ->
            os.lookup (<[filepath.Clean dst := File c]>
                         (<[filepath.Clean dst := File c2]> (w_fs w))) path
            = os.lookup (w_fs w) path).
  { intros c c2 path Hne. rewrite lookup_other by done. by apply lookup_other. }
  fault_step H.
  - destruct input as [data|].
    + wsimpl_in H.
      fault_step H; fault_step H; simplify_eq;
        (split; [wsimpl; by apply Hother2|]);
        try (right; apply (Hleft data); wsimpl; by apply lookup_stored).
      exists data. split; [done|]. wsimpl. by apply lookup_stored.
    + wsimpl_in H.
      fault_step H; simplify_eq;
        (split; [wsimpl; by apply Hother|]);
        right; apply (Hleft []); wsimpl; by apply lookup_stored.
  - fault_step H; simplify_eq;
      (split; [wsimpl; by apply Hother|]);
      right; apply (Hleft []); wsimpl; by apply lookup_stored.
Qed.

Lemma copyFile_absent_outcome_witness :
  (forall path,
     filepath.Clean path <> filepath.Clean ".sia_cache/f" ->
     os.lookup (w_fs (snd (copyFile (Some (bytes "data")) ".sia_cache/f"
                                    fresh_bucket))) path
     = os.lookup (w_fs fresh_bucket) path)
  /\ exists data,
       Some (bytes "data") = Some data
       /\ os.lookup (w_fs (snd (copyFile (Some (bytes "data")) ".sia_cache/f"
                                         fresh_bucket))) ".sia_cache/f"
          = Some (File data).
Proof.
  apply (copyFile_absent_outcome (Some (bytes "data")) ".sia_cache/f"
           fresh_bucket (Ok tt)); vm_compute; reflexivity.
Defined.

(** ** [PutObjectFromFile] *)

(** X17.  A [PutObjectFromFile] that succeeds on a file records the object
    with the length of that file as its size and the time of the call as
    [queued]. *)
Theorem PutObjectFromFile_records_size b file bucket objectName purge_after
  w w' content :
  os.lookup (w_fs w) file = Some (File content) ->
  PutObjectFromFile b file bucket objectName purge_after w = (Ok tt, w') ->
  find_object bucket objectName (w_objects w')
  = Some {| Bucket := bucket; Name := objectName;
            Size := Z.of_nat (length content); Queued := w_clock w;
            Uploaded := 0; PurgeAfter := purge_after; CachedFetches := 0;
            SiaFetches := 0; LastFetch := -1 |}.
Proof.
  intros Hfile. unfold PutObjectFromFile, os.Stat, os.Open. mrun.
  rewrite Hfile. mrun. intros H.
  fault_step H. wsimpl_in H. rewrite Hfile in H.
  apply Put_outcome in H
    as (_ & _ & [(_ & _ & ?)|(Hfilter & Hobj & _ & _)]); [done|].
  rewrite Hobj. wsimpl. wsimpl_in Hfilter.
  apply find_object_app_new; [done|]. by apply key_is_refl.
Qed.

Lemma PutObjectFromFile_records_size_witness :
  find_object "B" "x"
    (w_objects (snd (PutObjectFromFile demo ".sia_cache/f" "B" "x" 3600
                       (snd (copyFile (Some (bytes "data")) ".sia_cache/f"
                                      fresh_bucket)))))
  = Some {| Bucket := "B"; Name := "x";
            Size := Z.of_nat (length (bytes "data")); Queued := 50;
            Uploaded := 0; PurgeAfter := 3600; CachedFetches := 0;
            SiaFetches := 0; LastFetch := -1 |}.
Proof.
  apply (PutObjectFromFile_records_size demo ".sia_cache/f" "B" "x" 3600
           (snd (copyFile (Some (bytes "data")) ".sia_cache/f" fresh_bucket)));
    vm_compute; reflexivity.
Defined.

(** X18.  [PutObjectFromFile] of a path where nothing is fails at once:
    nothing is recorded, written or sent, and no call to the outside is
    made. *)
Theorem PutObjectFromFile_missing_file b file bucket objectName purge_after w :
  os.lookup (w_fs w) file = None ->
  PutObjectFromFile b file bucket objectName purge_after w = (Err ErrFs, w).
Proof.
  intros Hfile. unfold PutObjectFromFile, os.Stat. mrun. by rewrite Hfile.
Qed.

Lemma PutObjectFromFile_missing_file_witness :
  PutObjectFromFile demo "nothing" "B" "x" 3600 fresh_bucket
  = (Err ErrFs, fresh_bucket).
Proof.
  apply PutObjectFromFile_missing_file. vm_compute. reflexivity.
Defined.

(** ** [GetObject] from Sia *)

Lemma Mkdir_quiet dir w :
  w_faults w = [] ->
  exists r fs',
    os.Mkdir dir w = (r, with_fs fs' w)
    /\ forall path, filepath.Clean path <> filepath.Clean dir ->
                    os.lookup fs' path = os.lookup (w_fs w) path.
Proof.
  intros Hq. unfold os.Mkdir, os.store. mrun. rewrite fault_nil by exact Hq.
  destruct (String.eqb dir "").
  { exists (Err ErrFs), (w_fs w). by rewrite with_fs_same. }
  simpl. destruct (os.lookup (w_fs w) dir).
  { exists (Err ErrFs), (w_fs w). by rewrite with_fs_same. }
  destruct (os.is_dir _ _).
  - exists (Ok tt), (<[filepath.Clean dir := Directory]> (w_fs w)).
    split; [done|]. intros path Hne. by apply lookup_other.
  - exists (Err ErrFs), (w_fs w). by rewrite with_fs_same.
Qed.

(** X19.  When the record of the object says uploaded, nothing is at the
    path of its cache file, the daemon lists the object as available and no
    call to the outside fails, [GetObject] has the daemon download the
    object to the cache path and serves that file: the writer receives the
    bytes the daemon holds, the cache file is there again, and it is
    [cached_fetches], not [sia_fetches], that goes up by one. *)
Theorem GetObject_from_Sia b bucket objectName writer w o f :
  find_object bucket objectName (w_objects w) = Some o ->
  Uploaded o <> 0 ->
  cachedFile b bucket objectName <> "" ->
  own_path b bucket objectName ->
  os.lookup (w_fs w) (cachedFile b bucket objectName) = None ->
  List.find (fun f => String.eqb (SiaPath f) (bucket +:+ "/" +:+ objectName)
                      && Available f) (w_renter w) = Some f ->
  w_faults w = [] ->
  exists w',
    GetObject b bucket objectName writer w = (Ok tt, w')
    /\ received writer w' = received writer w ++ Stored f
    /\ os.lookup (w_fs w') (cachedFile b bucket objectName)
       = Some (File (Stored f))
    /\ w_requests w'
       = w_requests w
         ++ [HttpGet (SiadAddress b)
               ("/renter/download/" +:+ (bucket +:+ "/" +:+ objectName)
                +:+ "?destination=" +:+ cachedFile b bucket objectName)]
    /\ w_objects w'
       = List.map (fun r => if key_is bucket objectName r
                            then set_CachedFetches
                                   (Int64.add (CachedFetches o) 1) r
                            else r) (w_objects w).
Proof.
  intros (rest & Hf & Hk)%find_object_filter Hup Hne Hown Hno Hsia Hfl.
  destruct (lookup_None_inv _ _ Hne Hno) as [Hd _].
  destruct (Mkdir_quiet (filepath.Join (CacheDir b) bucket) w Hfl)
    as (rmk & fs1 & Hmk & Hfs1).
  assert (Hno1 : os.lookup fs1 (cachedFile b bucket objectName) = None).
  { rewrite Hfs1; [done|]. exact Hown. }
  unfold cachedFile in *.
  unfold GetObject, GetObjectInfo.
  unfold bind at 1. unfold bind at 1.
  rewrite query_objects_run, Hfl, key_is_swap, Hf.
  unfold get_renter_download, os.Stat, os.Open, io.Copy, updateCachedFetches,
    update_objects, os.store, abs.
  mrun. rewrite (set_Bucket_Name_id _ _ _ Hk), Hno. mrun.
  apply Z.eqb_neq in Hup. rewrite Hup, Hmk.
  rewrite fault_nil by exact Hfl. wsimpl. rewrite Hsia, Hno1.
  apply String.eqb_neq in Hne. rewrite Hne.
  rewrite fault_nil by exact Hfl. wsimpl.
  apply String.eqb_neq in Hne.
  rewrite (lookup_stored _ _ _ Hne Hd).
  rewrite fault_nil by exact Hfl.
  rewrite fault_nil by exact Hfl. wsimpl.
  eexists. split; [reflexivity|]. wsimpl. unfold received. wsimpl.
  split; [by rewrite lookup_insert_eq|].
  split; [by apply lookup_stored|]. done.
Qed.

Lemma GetObject_from_Sia_witness :
  exists w',
    GetObject demo "B" "x" 0%nat evicted = (Ok tt, w')
    /\ received 0%nat w' = received 0%nat evicted ++ bytes "data"
    /\ os.lookup (w_fs w') (cachedFile demo "B" "x")
       = Some (File (bytes "data"))
    /\ w_requests w'
       = w_requests evicted
         ++ [HttpGet (SiadAddress demo)
               ("/renter/download/" +:+ ("B" +:+ "/" +:+ "x")
                +:+ "?destination=" +:+ cachedFile demo "B" "x")]
    /\ w_objects w'
       = List.map (fun r => if key_is "B" "x" r
                            then set_CachedFetches (Int64.add 0 1) r
                            else r) (w_objects evicted).
Proof.
  apply (GetObject_from_Sia demo "B" "x" 0%nat evicted
           {| Bucket := "B"; Name := "x"; Size := 4; Queued := 50;
              Uploaded := 100; PurgeAfter := 0; CachedFetches := 0;
              SiaFetches := 0; LastFetch := -1 |}
           {| SiaPath := "B/x"; Available := true;
              Stored := bytes "data" |});
    vm_compute; try reflexivity; discriminate.
Defined.

(** ** The bucket methods together *)

Lemma query_buckets_run p w :
  query_buckets p w
  = match w_faults w with
    | [] => (Ok (List.filter p (w_buckets w)), w)
    | false :: l => (Ok (List.filter p (w_buckets w)), with_faults l w)
    | true :: l => (Err ErrDb, with_faults l w)
    end.
Proof.
  unfold query_buckets, fault. mrun.
  destruct w as [bs os fs rn rq wr ck fl]; simpl. by destruct fl as [|[] fl].
Qed.

Lemma GetBucketInfo_run bucket w :
  hd false (w_faults w) = false ->
  fst (GetBucketInfo bucket w)
  = match List.filter (bucket_is bucket) (w_buckets w) with
    | [] => Err (ErrNew "Bucket does not exist")
    | r :: _ => Ok {| BucketInfo.Name := bucket;
                      BucketInfo.Created := BucketInfo.Created r |}
    end.
Proof.
  intros Hok. unfold GetBucketInfo. unfold bind.
  rewrite query_buckets_run.
  destruct (w_faults w) as [|[] fl]; try done;
    by destruct (List.filter _ _).
Qed.

Lemma CreateBucket_run bucket w w' :
  CreateBucket bucket w = (Ok tt, w') ->
  w_buckets w'
  = (if existsb (bucket_is bucket) (w_buckets w) then w_buckets w
     else w_buckets w ++ [{| BucketInfo.Name := bucket;
                             BucketInfo.Created := w_clock w |}]).
Proof.
  unfold CreateBucket. intros H.
  apply bind_inv in H as [(found & w1 & H1 & H)|(e & _ & ?)]; [|done].
  apply bucketExists_run in H1 as (Hb & Ho & Hf & Hc & Hfound).
  rewrite (Hfound found eq_refl) in H.
  destruct (existsb (bucket_is bucket) (w_buckets w)) eqn:He.
  - mrun_in H. by simplify_eq.
  - unfold insertBucket, insert_bucket in H. mrun_in H.
    fault_step H. rewrite Hb in H. simpl in H. rewrite He in H.
    simplify_eq. simpl. by rewrite Hc.
Qed.

Lemma bucket_row_eta bucket r :
  bucket_is bucket r = true ->
  {| BucketInfo.Name := bucket; BucketInfo.Created := BucketInfo.Created r |}
  = r.
Proof.
  unfold bucket_is. intros <-%String.eqb_eq. by destruct r.
Qed.

(** X20.  After a [CreateBucket] that succeeds, [GetBucketInfo] of the
    bucket, when the database answers, returns a row of the table
    [buckets] with the name of the bucket; when the bucket was not there
    before, its creation time is the time of the call. *)
Theorem CreateBucket_then_GetBucketInfo bucket w w' :
  CreateBucket bucket w = (Ok tt, w') ->
  hd false (w_faults w') = false ->
  exists info,
    fst (GetBucketInfo bucket w') = Ok info
    /\ BucketInfo.Name info = bucket
    /\ In info (w_buckets w')
    /\ (existsb (bucket_is bucket) (w_buckets w) = false ->
        BucketInfo.Created info = w_clock w).
Proof.
  intros Hb%CreateBucket_run Hok.
  rewrite (GetBucketInfo_run _ _ Hok), Hb.
  destruct (existsb (bucket_is bucket) (w_buckets w)) eqn:He.
  - apply existsb_exists in He as (r & Hr & Hname).
    destruct (List.filter (bucket_is bucket) (w_buckets w)) as [|r1 rest]
      eqn:Hf.
    { assert (Hin : In r (List.filter (bucket_is bucket) (w_buckets w)))
        by (by apply filter_In).
      by rewrite Hf in Hin. }
    assert (Hr1 : In r1 (w_buckets w) /\ bucket_is bucket r1 = true).
    { apply filter_In. rewrite Hf. by left. }
    destruct Hr1 as [Hin1 Hk1].
    eexists. split; [reflexivity|]. split; [done|].
    split; [|done]. by rewrite (bucket_row_eta _ _ Hk1).
  - rewrite List.filter_app.
    apply filter_nil_existsb in He. rewrite He. simpl.
    unfold bucket_is at 1. simpl. rewrite String.eqb_refl.
    eexists. split; [reflexivity|]. split; [done|].
    split; [|done]. apply in_app_iff. right. by left.
Qed.

Lemma CreateBucket_then_GetBucketInfo_witness :
  exists info,
    fst (GetBucketInfo "C" (snd (CreateBucket "C" one_object))) = Ok info
    /\ BucketInfo.Name info = "C"
    /\ In info (w_buckets (snd (CreateBucket "C" one_object)))
    /\ (existsb (bucket_is "C") (w_buckets one_object) = false ->
        BucketInfo.Created info = w_clock one_object).
Proof.
  apply CreateBucket_then_GetBucketInfo; vm_compute; reflexivity.
Defined.

(** X21.  After a [DeleteBucket] that succeeds no row of the table
    [buckets] has the name of the bucket and the other rows are as before,
    so that [GetBucketInfo], when the database answers, reports that the
    bucket does not exist; the files of the cache and of the daemon are as
    before and nothing was sent to the daemon. *)
Theorem DeleteBucket_then_GetBucketInfo bucket w w' :
  DeleteBucket bucket w = (Ok tt, w') ->
  (hd false (w_faults w') = false ->
   fst (GetBucketInfo bucket w') = Err (ErrNew "Bucket does not exist"))
  /\ (forall r, In r (w_buckets w')
                <-> In r (w_buckets w) /\ BucketInfo.Name r <> bucket)
  /\ w_fs w' = w_fs w
  /\ w_renter w' = w_renter w
  /\ w_requests w' = w_requests w.
Proof.
  unfold DeleteBucket, delete_buckets. mrun. intros H.
  fault_step H. simplify_eq.
  assert (Hrows : forall r,
            In r (List.filter (fun r0 => negb (bucket_is bucket r0))
                              (w_buckets w))
            <-> In r (w_buckets w) /\ BucketInfo.Name r <> bucket).
  { intros r. rewrite filter_In. unfold bucket_is.
    rewrite negb_true_iff, String.eqb_neq. done. }
  split; [|by wsimpl].
  intros Hok. rewrite (GetBucketInfo_run _ _ Hok). wsimpl.
  destruct (List.filter (bucket_is bucket) _) as [|r rest] eqn:Hf; [done|].
  assert (Hr : In r (List.filter (bucket_is bucket)
                       (List.filter (fun r0 => negb (bucket_is bucket r0))
                                    (w_buckets w))))
    by (rewrite Hf; by left).
  apply filter_In in Hr as [[_ Hneg]%filter_In Hpos].
  by rewrite Hpos in Hneg.
Qed.

Lemma DeleteBucket_then_GetBucketInfo_witness :
  (hd false (w_faults (snd (DeleteBucket "B" one_object))) = false ->
   fst (GetBucketInfo "B" (snd (DeleteBucket "B" one_object)))
   = Err (ErrNew "Bucket does not exist"))
  /\ (forall r, In r (w_buckets (snd (DeleteBucket "B" one_object)))
                <-> In r (w_buckets one_object) /\ BucketInfo.Name r <> "B")
  /\ w_fs (snd (DeleteBucket "B" one_object)) = w_fs one_object
  /\ w_renter (snd (DeleteBucket "B" one_object)) = w_renter one_object
  /\ w_requests (snd (DeleteBucket "B" one_object)) = w_requests one_object.
Proof.
  apply DeleteBucket_then_GetBucketInfo. vm_compute. reflexivity.
Defined.

(** ** The line helpers *)

Lemma scan_lines_line text : forall cur tail,
  ~ In newline text ->
  Z.of_nat (length cur + length text) < bufio.MaxScanTokenSize ->
  bufio.scan_lines cur (text ++ newline :: tail)
  = (bufio.dropCR (cur ++ text) :: fst (bufio.scan_lines [] tail),
     snd (bufio.scan_lines [] tail)).
Proof.
  induction text as [|c text IH]; intros cur tail Hnl Hlen.
  - change ([] ++ newline :: tail) with (newline :: tail).
    rewrite List.app_nil_r.
    change (bufio.scan_lines cur (newline :: tail))
      with (let (lines, long) := bufio.scan_lines [] tail in
            (bufio.dropCR cur :: lines, long)).
    by destruct (bufio.scan_lines [] tail).
  - change ((c :: text) ++ newline :: tail)
      with (c :: (text ++ newline :: tail)).
    cbn [bufio.scan_lines].
    destruct (Byte.eqb c newline) eqn:Hc.
    { apply Byte.byte_dec_bl in Hc. exfalso. apply Hnl. by left. }
    assert (Hshort : Z.leb bufio.MaxScanTokenSize (Z.of_nat (length cur) + 1)
                     = false).
    { apply Z.leb_gt. simpl in Hlen. lia. }
    rewrite Hshort, IH.
    + by rewrite <- List.app_assoc.
    + intros Hin. apply Hnl. by right.
    + rewrite List.length_app. simpl in *. lia.
Qed.

Lemma scan_lines_joined lines : forall tail,
  Forall scannable lines ->
  bufio.scan_lines [] (joined lines ++ tail)
  = (List.map bufio.dropCR lines ++ fst (bufio.scan_lines [] tail),
     snd (bufio.scan_lines [] tail)).
Proof.
  unfold joined.
  induction lines as [|line lines IH]; intros tail Hok; simpl.
  { by destruct (bufio.scan_lines [] tail). }
  apply Forall_cons in Hok as [[Hnl Hlen] Hok].
  rewrite <- !List.app_assoc.
  change ([newline] ++ ?x) with (newline :: x).
  rewrite scan_lines_line by done.
  by rewrite IH.
Qed.

Lemma lines_of_quiet data w :
  w_faults w = [] ->
  bufio.lines_of (Some data) w
  = (Ok (List.map string_of_list_byte (fst (bufio.scan_lines [] data)),
         if snd (bufio.scan_lines [] data) then Some bufio.ErrTooLong
         else None), w).
Proof.
  intros Hq. unfold bufio.lines_of. mrun. rewrite fault_nil by exact Hq.
  by destruct (bufio.scan_lines [] data).
Qed.

Lemma readLines_joined path lines w :
  os.lookup (w_fs w) path = Some (File (joined lines)) ->
  Forall scannable lines ->
  w_faults w = [] ->
  readLines path w
  = (Ok (List.map (fun line => string_of_list_byte (bufio.dropCR line)) lines,
         None), w).
Proof.
  intros Hfile Hok Hq. unfold readLines, os.Open. mrun.
  rewrite fault_nil by exact Hq. rewrite Hfile.
  rewrite lines_of_quiet by exact Hq.
  rewrite <- (List.app_nil_r (joined lines)).
  rewrite scan_lines_joined by done. simpl.
  by rewrite List.app_nil_r, List.map_map.
Qed.

(** X22.  [readLines] of a file of complete lines, when no call to the
    outside fails, returns the lines in their order, each without its
    newline and without one carriage return before it, and no error; the
    file is as before. *)
Theorem readLines_reads_lines path lines w :
  os.lookup (w_fs w) path = Some (File (joined lines)) ->
  Forall scannable lines ->
  w_faults w = [] ->
  readLines path w
  = (Ok (List.map (fun line => string_of_list_byte (bufio.dropCR line)) lines,
         None), w).
Proof. apply readLines_joined. Qed.

Lemma readLines_reads_lines_witness :
  readLines "list.txt" two_line_file
  = (Ok (List.map (fun line => string_of_list_byte (bufio.dropCR line))
                  [bytes "first"; bytes "second"], None),
     two_line_file).
Proof.
  apply readLines_reads_lines.
  - vm_compute. reflexivity.
  - repeat constructor; unfold newline; simpl; intuition discriminate.
  - vm_compute. reflexivity.
Defined.

Lemma list_byte_of_string_line text :
  list_byte_of_string (text +:+ String (ascii_of_byte newline) "")
  = list_byte_of_string text ++ [newline].
Proof.
  induction text as [|a text IH]; [done|].
  change (list_byte_of_string (String a text +:+ String (ascii_of_byte newline) ""))
    with (byte_of_ascii a
          :: list_byte_of_string (text +:+ String (ascii_of_byte newline) "")).
  by rewrite IH.
Qed.

Lemma joined_snoc lines line :
  joined (lines ++ [line]) = joined lines ++ line ++ [newline].
Proof.
  unfold joined. rewrite List.map_app, concat_app. simpl.
  by rewrite List.app_nil_r.
Qed.

Lemma lookup_File_inv fs path content :
  os.lookup fs path = Some (File content) ->
  path <> "" /\ os.always_dir (filepath.Clean path) = false.
Proof.
  unfold os.lookup. destruct (String.eqb_spec path ""); [done|].
  by destruct (os.always_dir _).
Qed.

(** X23.  After [appendStringToFile] of a text without a newline to a file
    of complete lines, when no call to the outside fails, [readLines]
    returns the lines of before and then the text as the last line (less
    one carriage return at its end). *)
Theorem appendStringToFile_then_readLines path text lines w :
  os.lookup (w_fs w) path = Some (File (joined lines)) ->
  Forall scannable lines ->
  scannable (list_byte_of_string text) ->
  w_faults w = [] ->
  exists w1,
    appendStringToFile path text w = (Ok tt, w1)
    /\ readLines path w1
       = (Ok (List.map (fun line => string_of_list_byte (bufio.dropCR line))
                       (lines ++ [list_byte_of_string text]), None), w1).
Proof.
  intros Hfile Hlines Htext Hq.
  destruct (lookup_File_inv _ _ _ Hfile) as [Hne Hd].
  exists (with_fs (<[filepath.Clean path
                     := File (joined (lines ++ [list_byte_of_string text]))]>
                     (w_fs w)) w).
  split.
  - unfold appendStringToFile, os_OpenFile_append, File_WriteString, os.Close.
    mrun. rewrite fault_nil by exact Hq. rewrite Hfile.
    rewrite fault_nil by exact Hq. rewrite Hfile.
    rewrite fault_nil by exact Hq.
    by rewrite list_byte_of_string_line, joined_snoc.
  - apply readLines_joined; wsimpl.
    + by apply lookup_stored.
    + apply Forall_app. split; [done|]. by constructor.
    + done.
Qed.

Lemma appendStringToFile_then_readLines_witness :
  exists w1,
    appendStringToFile "list.txt" "third" two_line_file = (Ok tt, w1)
    /\ readLines "list.txt" w1
       = (Ok (List.map (fun line => string_of_list_byte (bufio.dropCR line))
                       ([bytes "first"; bytes "second"]
                        ++ [list_byte_of_string "third"]), None), w1).
Proof.
  apply appendStringToFile_then_readLines.
  - vm_compute. reflexivity.
  - repeat constructor; unfold newline; simpl; intuition discriminate.
  - split; [unfold newline; simpl; intuition discriminate|reflexivity].
  - vm_compute. reflexivity.
Defined.

(** X24.  [appendStringToFile] to a path where no file is fails and
    creates nothing: the files are as before. *)
Theorem appendStringToFile_missing path text w :
  (forall content, os.lookup (w_fs w) path <> Some (File content)) ->
  fst (appendStringToFile path text w) = Err ErrFs
  /\ w_fs (snd (appendStringToFile path text w)) = w_fs w.
Proof.
  intros Hno. unfold appendStringToFile, os_OpenFile_append. mrun.
  destruct (fault_cases ErrFs w) as [[l Hl]|[l Hl]]; rewrite Hl; wsimpl;
    [|done].
  destruct (os.lookup (w_fs w) path) as [[content|]|] eqn:Hfile; try done.
  by destruct (Hno content).
Qed.

Lemma appendStringToFile_missing_witness :
  fst (appendStringToFile "list.txt" "first" fresh_bucket) = Err ErrFs
  /\ w_fs (snd (appendStringToFile "list.txt" "first" fresh_bucket))
     = w_fs fresh_bucket.
Proof.
  apply appendStringToFile_missing. intros content. vm_compute. discriminate.
Defined.

(** X25.  [readLines] of a path where nothing is, in a directory that
    exists and when no call to the outside fails, creates an empty file
    there and returns no line and no error. *)
Theorem readLines_missing_creates path w :
  os.lookup (w_fs w) path = None ->
  path <> "" ->
  os.is_dir (w_fs w) (filepath.Dir (filepath.Clean path)) = true ->
  w_faults w = [] ->
  readLines path w
  = (Ok ([], None),
     with_fs (<[filepath.Clean path := File []]> (w_fs w)) w).
Proof.
  intros Hno Hne Hdir Hq.
  unfold readLines, os.Open, os.Create, os.store. mrun.
  rewrite fault_nil by exact Hq. rewrite Hno.
  rewrite fault_nil by exact Hq.
  apply String.eqb_neq in Hne. rewrite Hne. simpl. rewrite Hno, Hdir.
  by rewrite lines_of_quiet.
Qed.

Lemma readLines_missing_creates_witness :
  readLines "list.txt" fresh_bucket
  = (Ok ([], None),
     with_fs (<[filepath.Clean "list.txt" := File []]> (w_fs fresh_bucket))
             fresh_bucket).
Proof.
  apply readLines_missing_creates; vm_compute; try reflexivity; discriminate.
Defined.

Lemma scan_lines_too_long text : forall cur tail,
  ~ In newline text ->
  Z.of_nat (length cur) < bufio.MaxScanTokenSize ->
  bufio.MaxScanTokenSize <= Z.of_nat (length cur + length text) ->
  bufio.scan_lines cur (text ++ tail) = ([], true).
Proof.
  induction text as [|c text IH]; intros cur tail Hnl Hcur Hlen.
  - simpl in Hlen. lia.
  - change ((c :: text) ++ tail) with (c :: (text ++ tail)).
    cbn [bufio.scan_lines].
    destruct (Byte.eqb c newline) eqn:Hc.
    { apply Byte.byte_dec_bl in Hc. exfalso. apply Hnl. by left. }
    destruct (Z.leb bufio.MaxScanTokenSize (Z.of_nat (length cur) + 1))
      eqn:Hfull; [done|].
    apply Z.leb_gt in Hfull. apply IH.
    + intros Hin. apply Hnl. by right.
    + rewrite List.length_app. simpl. lia.
    + rewrite List.length_app. simpl in *. lia.
Qed.

(** X26.  When a file has, after complete lines, as many bytes without a
    newline as the buffer of the scanner holds (64 KiB) or more,
    [readLines] returns the lines before them together with the error of
    the scanner, and nothing of what follows. *)
Theorem readLines_line_too_long path lines long tail w :
  os.lookup (w_fs w) path = Some (File (joined lines ++ long ++ tail)) ->
  Forall scannable lines ->
  ~ In newline long ->
  bufio.MaxScanTokenSize <= Z.of_nat (length long) ->
  w_faults w = [] ->
  readLines path w
  = (Ok (List.map (fun line => string_of_list_byte (bufio.dropCR line)) lines,
         Some bufio.ErrTooLong), w).
Proof.
  intros Hfile Hok Hnl Hlen Hq. unfold readLines, os.Open. mrun.
  rewrite fault_nil by exact Hq. rewrite Hfile.
  rewrite lines_of_quiet by exact Hq.
  rewrite scan_lines_joined by done.
  rewrite scan_lines_too_long; [|done|done|done]. simpl.
  by rewrite List.app_nil_r, List.map_map.
Qed.

Lemma readLines_line_too_long_witness :
  readLines "list.txt" long_line_file
  = (Ok (List.map (fun line => string_of_list_byte (bufio.dropCR line))
                  [bytes "first"], Some bufio.ErrTooLong),
     long_line_file).
Proof.
  apply (readLines_line_too_long "list.txt" [bytes "first"] long_line []).
  - rewrite List.app_nil_r. unfold long_line_file.
    generalize long_line. intros long. vm_compute. reflexivity.
  - repeat constructor; unfold newline; simpl; intuition discriminate.
  - intros Hin. apply repeat_spec in Hin. discriminate Hin.
  - unfold long_line. rewrite repeat_length, Z2Nat.id; done.
  - vm_compute. reflexivity.
Defined.

(** ** [Start] and [manager] *)

(** X27.  [Start], however it ends, keeps the two tables and sends
    nothing to the daemon; of the files it changes at most the path of the
    cache directory, and nothing at all when something is at that path
    already: the cache of an earlier run is kept. *)
Theorem Start_keeps_catalog_and_cache b w :
  w_objects (snd (Start b w)) = w_objects w
  /\ w_buckets (snd (Start b w)) = w_buckets w
  /\ w_requests (snd (Start b w)) = w_requests w
  /\ w_renter (snd (Start b w)) = w_renter w
  /\ (forall path,
        filepath.Clean path <> filepath.Clean (CacheDir b) ->
        os.lookup (w_fs (snd (Start b w))) path = os.lookup (w_fs w) path)
  /\ (os.lookup (w_fs w) (CacheDir b) <> None ->
      w_fs (snd (Start b w)) = w_fs w).
Proof.
  set (P := fun w0 : World =>
              w_objects w0 = w_objects w /\ w_buckets w0 = w_buckets w
              /\ w_requests w0 = w_requests w /\ w_renter w0 = w_renter w).
  assert (Hk : keeps P (Start b)) by frame.
  destruct (Hk w) as (Ho & Hb & Hq & Hr); [done|].
  repeat (split; [done|]).
  set (Q := fun w0 : World =>
              (forall path,
                 filepath.Clean path <> filepath.Clean (CacheDir b) ->
                 os.lookup (w_fs w0) path = os.lookup (w_fs w) path)
              /\ (os.lookup (w_fs w) (CacheDir b) <> None ->
                  w_fs w0 = w_fs w)).
  assert (HQ : keeps Q (Start b)); [|by apply (HQ w)].
  assert (Hfaults : forall e, keeps Q (fault e)).
  { intros e. by apply keeps_fault. }
  unfold Start, initDatabase.
  apply keeps_bind; [|intros _; frame].
  apply keeps_try. intros w0 [Hother Hsame].
  destruct (os.Mkdir (CacheDir b) w0) as [r w1] eqn:Hmk.
  assert (Htry : try (os.Mkdir (CacheDir b)) w0 = (Ok r, w1))
    by (unfold try; by rewrite Hmk).
  apply try_Mkdir_spec in Htry as (_ & _ & Hfs). simpl. split.
  - intros path Hne. rewrite Hfs by done. by apply Hother.
  - intros Hthere. specialize (Hsame Hthere).
    revert Hmk. unfold os.Mkdir, os.store. mrun. intros Hmk.
    fault_step Hmk; [|by simplify_eq].
    destruct (String.eqb (CacheDir b) ""); [by simplify_eq|].
    simpl in Hmk. rewrite Hsame in Hmk.
    destruct (os.lookup (w_fs w) (CacheDir b)); [by simplify_eq|done].
Qed.

Lemma checkSiaUploads_frame b w :
  w_fs (snd (checkSiaUploads b w)) = w_fs w
  /\ w_buckets (snd (checkSiaUploads b w)) = w_buckets w
  /\ w_clock (snd (checkSiaUploads b w)) = w_clock w.
Proof.
  set (P := fun w0 : World =>
              w_fs w0 = w_fs w /\ w_buckets w0 = w_buckets w
              /\ w_clock w0 = w_clock w).
  assert (Hk : keeps P (checkSiaUploads b)) by frame.
  by apply (Hk w).
Qed.

(** X28.  A tick of [manager] removes the cache file of an object that is
    due and whose bucket is listed even when its pass of [checkSiaUploads]
    has failed: all it takes is that no call of the purge itself fails.
    [manager] reports no error. *)
Theorem manager_evicts_due b w bucket o content :
  pk_unique (w_objects w) ->
  w_faults (snd (checkSiaUploads b w)) = [] ->
  In bucket (w_buckets w) ->
  In o (w_objects w) ->
  BucketInfo.Name bucket = Bucket o ->
  purge_due (w_clock w) o = true ->
  os.lookup (w_fs w) (cachedFile b (Bucket o) (Name o)) = Some (File content) ->
  exists w',
    manager b w = (Ok tt, w')
    /\ os.lookup (w_fs w') (cachedFile b (Bucket o) (Name o)) = None.
Proof.
  intros Hpk Hq Hbucket Ho Hname Hdue Hfile.
  destruct (checkSiaUploads_frame b w) as (Hfs & Hbk & Hck).
  destruct (checkSiaUploads b w) as [r w1] eqn:Hrun. simpl in *.
  assert (Ho1 : In o (w_objects w1)).
  { pose proof (checkSiaUploads_reconciled _ _ _ _ Hrun) as Hrec.
    destruct (Forall2_In_l _ _ _ _ Hrec Ho)
      as (o' & Hin & [->|[_ (r0 & Hr0 & Hup & Hkey)]]); [done|].
    exfalso. rewrite (pk_unique_same_key _ _ _ Hpk Hr0 Ho Hkey) in Hup.
    unfold purge_due in Hdue. rewrite Hup in Hdue. done. }
  destruct (purgeCache_quiet b w1 bucket o content) as (w' & Hpurge & Hgone & _);
    try congruence.
  exists w'. split; [|done].
  unfold manager. mrun. by rewrite Hrun, Hpurge.
Qed.

Lemma manager_evicts_due_witness :
  exists w',
    manager demo reconcile_fails = (Ok tt, w')
    /\ os.lookup (w_fs w') (cachedFile demo "B" "x") = None.
Proof.
  apply (manager_evicts_due demo reconcile_fails
           {| BucketInfo.Name := "B"; BucketInfo.Created := 0 |}
           {| Bucket := "B"; Name := "x"; Size := 4; Queued := 50;
              Uploaded := 100; PurgeAfter := 0; CachedFetches := 0;
              SiaFetches := 0; LastFetch := -1 |}
           (bytes "data")).
  - apply (reachable_pk_unique demo). eexists. reflexivity.
  - vm_compute. reflexivity.
  - vm_compute. auto.
  - vm_compute. auto.
  - reflexivity.
  - vm_compute. reflexivity.
  - vm_compute. reflexivity.
Defined.
